(** * gluetun: the DNS-over-TLS supervisor loop and the NordVPN server updater

    A shallow embedding of [internal/dns] (the looper: [Run],
    [RunRestartTicker], [SetSettings], [useUnencryptedDNS]) and of
    [internal/updater/nordvpn.go] ([findNordvpnServers]), with the
    properties the specification states about them.

    Conventions.
    - Go's [net.IP] is a byte slice: [list byte]; a nilable IP field is an
      [option].
    - [time.Duration] and Unix nanoseconds are [Z]; 64-bit wrap-around is
      written [wrap64].
    - Everything the looper does to the outside world (logger, Configurator,
      readiness callback, goroutines) is an [action] appended to a trace.
    - What the outside world does to the looper (commands on the unbuffered
      channels, context cancellation, results of Configurator calls, timer
      expiry) is an [event]; the loops are step functions over events.
    - A select takes any case that can proceed; when several can, each is
      a possible event.
    - While [Run] executes, the [Enabled] flag is written by [Run] alone
      (the Settings Store contract of the specification); [SetSettings] is
      modelled on its own. *)

From Stdlib Require Import String Ascii List ZArith Bool Lia Sorted Permutation.
From Stdlib.Strings Require Import Byte.
Import ListNotations.
Open Scope string_scope.
Open Scope list_scope.

(** ** Package [net] (Go standard library) *)
Module net.

Definition IP := list byte.

Definition IPv4len : nat := 4.
Definition IPv6len : nat := 16.

Definition isZeros (p : list byte) : bool :=
  forallb (fun b => Byte.eqb b x00) p.

(** [func (ip IP) To4() IP]: the 4-byte form of an IPv4 address, [None]
    (nil) when [ip] is not an IPv4 address. *)
Definition To4 (ip : IP) : option IP :=
  if Nat.eqb (length ip) IPv4len then Some ip
  else if Nat.eqb (length ip) IPv6len
          && isZeros (firstn 10 ip)
          && Byte.eqb (nth 10 ip x00) xff
          && Byte.eqb (nth 11 ip x00) xff
       then Some (firstn 4 (skipn 12 ip))
       else None.

Definition isIPv4 (ip : IP) : bool :=
  match To4 ip with Some _ => true | None => false end.

(** [net.IP{127, 0, 0, 1}] *)
Definition loopback : IP := [x7f; x00; x00; x01].

End net.

(** ** Package [settings]: the fields of [settings.DNS] the looper reads *)
Module settings.

Record DNS := {
  Enabled : bool;
  Providers : list string;
  PlaintextAddress : option net.IP;
  KeepNameserver : bool;
  UpdatePeriod : Z;
  VerbosityDetailsLevel : Z
}.

Definition withEnabled (b : bool) (s : DNS) : DNS :=
  {| Enabled := b;
     Providers := Providers s;
     PlaintextAddress := PlaintextAddress s;
     KeepNameserver := KeepNameserver s;
     UpdatePeriod := UpdatePeriod s;
     VerbosityDetailsLevel := VerbosityDetailsLevel s |}.

End settings.

(** ** Package [dns]: the looper *)
Module dns.
Import settings.

Definition error := string.

(** Effects of the looper on its collaborators, in program order. *)
Inductive action :=
| Info (msg : string)                       (* l.logger.Info(msg) *)
| InfoIP (fmt : string) (ip : net.IP)     (* l.logger.Info(fmt, targetIP) *)
| Warn (msg : string)                       (* l.logger.Warn(msg) *)
| WarnErr (err : error)                     (* l.logger.Warn(err) *)
| ErrorErr (err : error)                    (* l.logger.Error(err) *)
| ErrorProviders (fmt : string) (ps : list string)
| UseDNSInternally (ip : net.IP)
| UseDNSSystemWide (ip : net.IP) (keepNameserver : bool)
| SignalDNSReady                            (* signalDNSReady() *)
| DownloadRootHints
| DownloadRootKey
| MakeUnboundConf
| ConfStart (h : nat)                       (* l.conf.Start(unboundCtx, ...) *)
| WaitForUnbound
| GoMerge (h : nat)                         (* go l.streamMerger.Merge(...) *)
| GoWaitFn (h : nat)                        (* go func() { waitError <- waitFn() }() *)
| Cancel (h : option nat)                   (* unboundCancel() *)
| RecvWaitError (h : nat)                   (* <-waitError *)
| CloseWaitError (h : nat)                  (* close(waitError) *)
| NewTimer (d : Z)                          (* time.NewTimer(d) *)
| TimerStop
| WgDone.                                   (* wg.Done() *)

Definition isDNSSwitch (a : action) : bool :=
  match a with
  | UseDNSInternally _ | UseDNSSystemWide _ _ => true
  | _ => false
  end.

(** The calls that change the DNS target, as they occur in a trace. *)
Definition dnsSwitches (tr : list action) : list action :=
  filter isDNSSwitch tr.

(** [models.DNSProviderData]: only [IPs] is read. *)
Record DNSProviderData := { IPs : list net.IP }.

Definition zeroProviderData : DNSProviderData := {| IPs := [] |}.

(** How a blocking or panicking operation ends. *)
Inductive outcome (A : Type) :=
| Ok (a : A)
| Blocks      (* the goroutine blocks for ever *)
| Panics.     (* run-time panic *)
Arguments Ok {A} a.
Arguments Blocks {A}.
Arguments Panics {A}.

Section Looper.

(** [constants.DNSProviderMapping()]: the table is not part of the sources
    at hand; it is a parameter.  A Go map lookup of a missing key yields the
    zero value. *)
Variable DNSProviderMapping : string -> option DNSProviderData.

Definition providerData (provider : string) : DNSProviderData :=
  match DNSProviderMapping provider with
  | Some d => d
  | None => zeroProviderData
  end.

(** [if err := l.conf.UseDNSSystemWide(...); err != nil { l.logger.Error(err) }] *)
Definition logIfError (r : option error) : list action :=
  match r with
  | Some err => [ErrorErr err]
  | None => []
  end.

(** Inner loop of [useUnencryptedDNS] (lines 282-291):
    [for _, targetIP = range data.IPs { if targetIP.To4() != nil {...return} }]. *)
Fixpoint firstIPv4 (ips : list net.IP) : option net.IP :=
  match ips with
  | [] => None
  | targetIP :: rest =>
      match net.To4 targetIP with
      | Some _ => Some targetIP
      | None => firstIPv4 rest
      end
  end.

(** Outer loop of [useUnencryptedDNS] (lines 280-292). *)
Fixpoint firstProviderIPv4 (providers : list string) : option net.IP :=
  match providers with
  | [] => None
  | provider :: rest =>
      match firstIPv4 (IPs (providerData provider)) with
      | Some targetIP => Some targetIP
      | None => firstProviderIPv4 rest
      end
  end.

(** [func (l *looper) useUnencryptedDNS(fallback bool)], lines 261-296.
    [st] is what [l.GetSettings()] returns and [r] what
    [l.conf.UseDNSSystemWide] returns if it is called. *)
Definition useUnencryptedDNS (fallback : bool) (st : DNS) (r : option error)
  : list action :=
  match PlaintextAddress st with
  | Some targetIP =>
      [InfoIP (if fallback
               then "falling back on plaintext DNS at address %s"
               else "using plaintext DNS at address %s") targetIP;
       UseDNSInternally targetIP;
       UseDNSSystemWide targetIP (KeepNameserver st)] ++ logIfError r
  | None =>
      match firstProviderIPv4 (Providers st) with
      | Some targetIP =>
          [InfoIP "falling back on plaintext DNS at address %s" targetIP;
           UseDNSInternally targetIP;
           UseDNSSystemWide targetIP (KeepNameserver st)] ++ logIfError r
      | None =>
          [ErrorProviders "no ipv4 DNS address found for providers %s"
                          (Providers st)]
      end
  end.

(** The Fallback Selector as the specification words it (section 4.3):
    the plaintext address when set, else the first IPv4 address met when
    the providers are read in configured order and each provider's
    addresses in their given order, else none. *)
Definition selectFallback (st : DNS) : option net.IP :=
  match PlaintextAddress st with
  | Some ip => Some ip
  | None =>
      find net.isIPv4
           (flat_map (fun provider => IPs (providerData provider)) (Providers st))
  end.

(** What applying a DNS target means: both switches, in this order. *)
Definition applied (ip : net.IP) (keep : bool) : list action :=
  [UseDNSInternally ip; UseDNSSystemWide ip keep].

Lemma firstIPv4_find ips : firstIPv4 ips = find net.isIPv4 ips.
Proof.
  induction ips as [|ip ips IH]; simpl; [reflexivity|].
  unfold net.isIPv4. destruct (net.To4 ip); [reflexivity | exact IH].
Qed.

Lemma find_app {A} (f : A -> bool) (l1 l2 : list A) :
  find f (l1 ++ l2) = match find f l1 with Some x => Some x | None => find f l2 end.
Proof.
  induction l1 as [|a l1 IH]; simpl; [reflexivity|].
  destruct (f a); [reflexivity | exact IH].
Qed.

Lemma firstProviderIPv4_find providers :
  firstProviderIPv4 providers =
  find net.isIPv4 (flat_map (fun p => IPs (providerData p)) providers).
Proof.
  induction providers as [|p ps IH]; simpl; [reflexivity|].
  rewrite find_app, <- firstIPv4_find.
  destruct (firstIPv4 (IPs (providerData p))); [reflexivity | exact IH].
Qed.

Lemma dnsSwitches_logIfError r : dnsSwitches (logIfError r) = [].
Proof. destruct r; reflexivity. Qed.

(** C6.  For every settings value, fallback flag and result of the
    system-wide switch: the DNS switches [useUnencryptedDNS] performs are
    exactly the application of the target the Fallback Selector of the
    specification chooses (the plaintext address when set, else the first
    IPv4 address over the providers in order and their addresses in order);
    when there is none, no switch is performed and the only effect is the
    error log. *)
Theorem useUnencryptedDNS_selectFallback (fallback : bool) (st : DNS) (r : option error) :
  match selectFallback st with
  | Some ip =>
      dnsSwitches (useUnencryptedDNS fallback st r) = applied ip (KeepNameserver st)
  | None =>
      dnsSwitches (useUnencryptedDNS fallback st r) = []
      /\ useUnencryptedDNS fallback st r =
         [ErrorProviders "no ipv4 DNS address found for providers %s" (Providers st)]
  end.
Proof.
  unfold selectFallback, useUnencryptedDNS.
  destruct (PlaintextAddress st) as [ip|].
  - cbn [app dnsSwitches filter isDNSSwitch].
    fold (dnsSwitches (logIfError r)). rewrite dnsSwitches_logIfError. reflexivity.
  - rewrite <- firstProviderIPv4_find.
    destruct (firstProviderIPv4 (Providers st)) as [ip|].
    + cbn [app dnsSwitches filter isDNSSwitch].
      fold (dnsSwitches (logIfError r)). rewrite dnsSwitches_logIfError. reflexivity.
    + split; reflexivity.
Qed.


(** *** The supervisor loop: [Run], [waitForFirstStart],
        [waitForSubsequentStart], [logAndWait] *)

(** A resolver instance as [Run] sees it: what [unboundCancel] controls.
    [started] is set once [l.conf.Start] has returned without error;
    [cancelled] once its cancel function has been called. *)
Record process := { pid : nat; started : bool; cancelled : bool }.

(** A [waitError] channel.  It is made at line 217 together with the one
    goroutine (lines 218-221) that sends the result of [waitFn()] of process
    [owner] on it, once.  [received] counts the receives that took that
    value. *)
Record channel := { owner : nat; received : nat; closed : bool }.

(** [unboundCancel()].  The variable starts as [func() {}] ([None]). *)
Definition cancel (h : option process) : option process :=
  match h with
  | None => None
  | Some p => Some {| pid := pid p; started := started p; cancelled := true |}
  end.

(** [<-waitError].  A nil channel never delivers; a closed one delivers the
    zero value at once; otherwise the single value of the sender is taken
    if it has not been taken yet. *)
Definition recv (c : option channel) : outcome (option channel) :=
  match c with
  | None => Blocks
  | Some ch =>
      if closed ch then Ok (Some ch)
      else if Nat.eqb (received ch) 0
           then Ok (Some {| owner := owner ch; received := 1; closed := false |})
           else Blocks
  end.

(** [close(waitError)]: closing a nil or a closed channel panics. *)
Definition close (c : option channel) : outcome (option channel) :=
  match c with
  | None => Panics
  | Some ch =>
      if closed ch then Panics
      else Ok (Some {| owner := owner ch; received := received ch; closed := true |})
  end.

Inductive command := Start | Stop | Restart.

(** Program points of [Run] at which the loop waits for its environment. *)
Inductive pc :=
| AtInitialDNS            (* line 157: l.useUnencryptedDNS(false) *)
| AtFirstStartSelect      (* lines 110-125: select of waitForFirstStart *)
| AtFirstStartReturned    (* line 159: if ctx.Err() != nil *)
| AtLoopHead              (* line 169: for ctx.Err() == nil *)
| AtSubsequentStartSelect (* lines 135-150: select of waitForSubsequentStart *)
| AtDownloadRootHints     (* line 175 *)
| AtDownloadRootKey       (* line 179 *)
| AtMakeUnboundConf       (* line 183 *)
| AtConfStart             (* line 195 *)
| AtUseDNSSystemWide      (* line 207 *)
| AtWaitForUnbound        (* line 210 *)
| AtActiveSelect          (* lines 227-255: select of the inner loop *)
| AtFallback (err : error)(* lines 199-200, 213-214, 252-253 *)
| AtLogAndWaitSelect      (* lines 99-105: select of logAndWait *)
| Returned
| Blocked
| Panicked.

(** What the environment does. *)
Inductive event :=
| CtxCancel                    (* the context is cancelled, at any moment *)
| Receive (c : command)        (* a select takes <-l.start, <-l.stop or <-l.restart *)
| CtxDone                      (* a select takes <-ctx.Done() *)
| ProcessExit (err : error)    (* the Active select takes err := <-waitError *)
| TimerC                       (* logAndWait's select takes <-timer.C *)
| Returns (r : option error)   (* the pending Configurator call returns r *)
| Tau.                         (* no input: the loop evaluates a condition *)

(** The looper's [settings] field, the context, and the local variables of
    [Run].  [retired] and [dropped] hold the processes and channels that no
    variable refers to any more (every assignment to [unboundCancel] or
    [waitError] moves the previous value there), so that all instances ever
    made stay visible. *)
Record state := {
  at_pc : pc;
  l_settings : DNS;
  ctxErr : bool;
  settings_snapshot : DNS;
  triggeredRestart : bool;
  unboundCancel : option process;
  waitError : option channel;
  retired : list process;
  dropped : list channel;
  nextPid : nat
}.

Definition goto (l : pc) (s : state) : state :=
  {| at_pc := l; l_settings := l_settings s; ctxErr := ctxErr s;
     settings_snapshot := settings_snapshot s;
     triggeredRestart := triggeredRestart s;
     unboundCancel := unboundCancel s; waitError := waitError s;
     retired := retired s; dropped := dropped s; nextPid := nextPid s |}.

Definition setCtxErr (s : state) : state :=
  {| at_pc := at_pc s; l_settings := l_settings s; ctxErr := true;
     settings_snapshot := settings_snapshot s;
     triggeredRestart := triggeredRestart s;
     unboundCancel := unboundCancel s; waitError := waitError s;
     retired := retired s; dropped := dropped s; nextPid := nextPid s |}.

(** [func (l *looper) isEnabled() bool] *)
Definition isEnabled (s : state) : bool := Enabled (l_settings s).

(** [func (l *looper) setEnabled(enabled bool)] *)
Definition setEnabled (enabled : bool) (s : state) : state :=
  {| at_pc := at_pc s; l_settings := withEnabled enabled (l_settings s);
     ctxErr := ctxErr s; settings_snapshot := settings_snapshot s;
     triggeredRestart := triggeredRestart s;
     unboundCancel := unboundCancel s; waitError := waitError s;
     retired := retired s; dropped := dropped s; nextPid := nextPid s |}.

(** [settings := l.GetSettings()] (line 172) *)
Definition takeSnapshot (s : state) : state :=
  {| at_pc := at_pc s; l_settings := l_settings s; ctxErr := ctxErr s;
     settings_snapshot := l_settings s;
     triggeredRestart := triggeredRestart s;
     unboundCancel := unboundCancel s; waitError := waitError s;
     retired := retired s; dropped := dropped s; nextPid := nextPid s |}.

Definition setTriggeredRestart (b : bool) (s : state) : state :=
  {| at_pc := at_pc s; l_settings := l_settings s; ctxErr := ctxErr s;
     settings_snapshot := settings_snapshot s;
     triggeredRestart := b;
     unboundCancel := unboundCancel s; waitError := waitError s;
     retired := retired s; dropped := dropped s; nextPid := nextPid s |}.

Definition setUnboundCancel (h : option process) (s : state) : state :=
  {| at_pc := at_pc s; l_settings := l_settings s; ctxErr := ctxErr s;
     settings_snapshot := settings_snapshot s;
     triggeredRestart := triggeredRestart s;
     unboundCancel := h; waitError := waitError s;
     retired := retired s; dropped := dropped s; nextPid := nextPid s |}.

Definition setWaitError (c : option channel) (s : state) : state :=
  {| at_pc := at_pc s; l_settings := l_settings s; ctxErr := ctxErr s;
     settings_snapshot := settings_snapshot s;
     triggeredRestart := triggeredRestart s;
     unboundCancel := unboundCancel s; waitError := c;
     retired := retired s; dropped := dropped s; nextPid := nextPid s |}.

Definition optList {A} (o : option A) : list A :=
  match o with Some a => [a] | None => [] end.

(** [unboundCtx, unboundCancel = context.WithCancel(context.Background())]
    (line 194): a new handle; the previous one is no longer referred to. *)
Definition newContext (s : state) : state :=
  {| at_pc := at_pc s; l_settings := l_settings s; ctxErr := ctxErr s;
     settings_snapshot := settings_snapshot s;
     triggeredRestart := triggeredRestart s;
     unboundCancel := Some {| pid := nextPid s; started := false; cancelled := false |};
     waitError := waitError s;
     retired := optList (unboundCancel s) ++ retired s;
     dropped := dropped s; nextPid := S (nextPid s) |}.

(** [l.conf.Start] returned without error: the process runs. *)
Definition markStarted (s : state) : state :=
  setUnboundCancel
    (match unboundCancel s with
     | Some p => Some {| pid := pid p; started := true; cancelled := cancelled p |}
     | None => None
     end) s.

Definition currentPid (s : state) : option nat :=
  match unboundCancel s with Some p => Some (pid p) | None => None end.

(** [waitError = make(chan error)] and the goroutine that feeds it
    (lines 217-221). *)
Definition makeWaitError (s : state) : state :=
  {| at_pc := at_pc s; l_settings := l_settings s; ctxErr := ctxErr s;
     settings_snapshot := settings_snapshot s;
     triggeredRestart := triggeredRestart s;
     unboundCancel := unboundCancel s;
     waitError := Some {| owner := match currentPid s with Some n => n | None => 0 end;
                          received := 0; closed := false |};
     retired := retired s;
     dropped := optList (waitError s) ++ dropped s; nextPid := nextPid s |}.

Definition chanOwner (s : state) : list nat :=
  match waitError s with Some ch => [owner ch] | None => [] end.

(** [unboundCancel(); <-waitError; close(waitError)]
    (lines 190-192, 230-232, 243-245). *)
Definition cancelAndDrain (s : state) : outcome state * list action :=
  let s1 := setUnboundCancel (cancel (unboundCancel s)) s in
  match recv (waitError s1) with
  | Ok c1 =>
      match close c1 with
      | Ok c2 =>
          (Ok (setWaitError c2 s1),
           [Cancel (currentPid s)] ++ map RecvWaitError (chanOwner s)
                                   ++ map CloseWaitError (chanOwner s))
      | _ => (Panics, [Cancel (currentPid s)] ++ map RecvWaitError (chanOwner s))
      end
  | Blocks => (Blocks, [Cancel (currentPid s)])
  | Panics => (Panics, [Cancel (currentPid s)])
  end.

(** Continue at [l] when [o] went through, else stay blocked or panicked. *)
Definition continueAt (l : pc) (s : state) (o : outcome state) : state :=
  match o with
  | Ok s' => goto l s'
  | Blocks => goto Blocked s
  | Panics => goto Panicked s
  end.

(** [const waitDuration = 10 * time.Second], in nanoseconds *)
Definition waitDuration : Z := 10 * 1000000000.

(** [logAndWait] up to its select (lines 95-98). *)
Definition logAndWait_enter (err : error) : list action :=
  [WarnErr err; Info "attempting restart in 10 seconds"; NewTimer waitDuration].

(** The select of [logAndWait] (lines 99-105); it returns to a [continue]
    or to the end of the inner loop, hence to the loop head. *)
Definition logAndWait (s : state) (e : event) : option (state * list action) :=
  match e with
  | TimerC => Some (goto AtLoopHead s, [])
  | CtxDone => if ctxErr s then Some (goto AtLoopHead s, [TimerStop]) else None
  | _ => None
  end.

(** The select of [waitForFirstStart] (lines 108-127). *)
Definition waitForFirstStart (s : state) (e : event) : option (state * list action) :=
  match e with
  | Receive Stop => Some (setEnabled false s, [Info "not started yet"])
  | Receive Restart =>
      if isEnabled s then Some (goto AtFirstStartReturned s, [])
      else Some (s, [SignalDNSReady; Info "not restarting because disabled"])
  | Receive Start => Some (goto AtFirstStartReturned (setEnabled true s), [])
  | CtxDone => if ctxErr s then Some (goto AtFirstStartReturned s, []) else None
  | _ => None
  end.

(** The select of [waitForSubsequentStart] (lines 133-151); on return [Run]
    goes on with line 172. *)
Definition waitForSubsequentStart (s : state) (e : event) : option (state * list action) :=
  match e with
  | Receive Stop => Some (s, [Info "already disabled"])
  | Receive Restart =>
      if negb (isEnabled s) then Some (s, [Info "not restarting because disabled"])
      else Some (goto AtDownloadRootHints (takeSnapshot s), [])
  | Receive Start =>
      Some (goto AtDownloadRootHints (takeSnapshot (setEnabled true s)), [])
  | CtxDone =>
      if ctxErr s
      then Some (goto AtDownloadRootHints
                   (takeSnapshot (setUnboundCancel (cancel (unboundCancel s)) s)),
                 [Cancel (currentPid s)])
      else None
  | _ => None
  end.

(** One step of [func (l *looper) Run(ctx, wg, signalDNSReady)],
    lines 154-259.  [None]: the event cannot happen at this point. *)
Definition Run (s : state) (e : event) : option (state * list action) :=
  match at_pc s, e with
  | (Returned | Blocked | Panicked), _ => None
  | _, CtxCancel => Some (setCtxErr s, [])
  (* line 157 *)
  | AtInitialDNS, Returns r =>
      Some (goto AtFirstStartSelect s, useUnencryptedDNS false (l_settings s) r)
  (* line 158 *)
  | AtFirstStartSelect, _ => waitForFirstStart s e
  (* lines 159-168 *)
  | AtFirstStartReturned, Tau =>
      if ctxErr s then Some (goto Returned s, [WgDone])
      else Some (goto AtLoopHead (setEnabled true (setTriggeredRestart false s)), [])
  (* lines 169-170, and line 258 when the loop ends *)
  | AtLoopHead, Tau =>
      if ctxErr s
      then Some (goto Returned (setUnboundCancel (cancel (unboundCancel s)) s),
                 [Cancel (currentPid s); Warn "loop exited"; WgDone])
      else if isEnabled s
           then Some (goto AtDownloadRootHints (takeSnapshot s), [])
           else Some (goto AtSubsequentStartSelect s, [])
  | AtSubsequentStartSelect, _ => waitForSubsequentStart s e
  (* lines 175-178 *)
  | AtDownloadRootHints, Returns None => Some (goto AtDownloadRootKey s, [DownloadRootHints])
  | AtDownloadRootHints, Returns (Some err) =>
      Some (goto AtLogAndWaitSelect s, DownloadRootHints :: logAndWait_enter err)
  (* lines 179-182 *)
  | AtDownloadRootKey, Returns None => Some (goto AtMakeUnboundConf s, [DownloadRootKey])
  | AtDownloadRootKey, Returns (Some err) =>
      Some (goto AtLogAndWaitSelect s, DownloadRootKey :: logAndWait_enter err)
  (* lines 183-186 *)
  | AtMakeUnboundConf, Returns (Some err) =>
      Some (goto AtLogAndWaitSelect s, MakeUnboundConf :: logAndWait_enter err)
  (* lines 183, 188-194 *)
  | AtMakeUnboundConf, Returns None =>
      if triggeredRestart s
      then let (o, tr) := cancelAndDrain (setTriggeredRestart false s) in
           Some (continueAt AtConfStart s
                   (match o with Ok s' => Ok (newContext s') | Blocks => Blocks | Panics => Panics end),
                 MakeUnboundConf :: tr)
      else Some (goto AtConfStart (newContext s), [MakeUnboundConf])
  (* lines 195-202 *)
  | AtConfStart, Returns (Some err) =>
      Some (goto (AtFallback err) (setUnboundCancel (cancel (unboundCancel s)) s),
            map ConfStart (optList (currentPid s)) ++ [Cancel (currentPid s)])
  (* lines 195, 205-206 *)
  | AtConfStart, Returns None =>
      Some (goto AtUseDNSSystemWide (markStarted s),
            map ConfStart (optList (currentPid s))
            ++ map GoMerge (optList (currentPid s))
            ++ [UseDNSInternally net.loopback])
  (* lines 207-209 *)
  | AtUseDNSSystemWide, Returns r =>
      Some (goto AtWaitForUnbound s,
            UseDNSSystemWide net.loopback (KeepNameserver (settings_snapshot s))
            :: logIfError r)
  (* lines 210-216 *)
  | AtWaitForUnbound, Returns (Some err) =>
      Some (goto (AtFallback err) (setUnboundCancel (cancel (unboundCancel s)) s),
            [WaitForUnbound; Cancel (currentPid s)])
  (* lines 210, 217-225 *)
  | AtWaitForUnbound, Returns None =>
      Some (goto AtActiveSelect (makeWaitError s),
            [WaitForUnbound] ++ map GoWaitFn (optList (currentPid s))
            ++ [Info "DNS over TLS is ready"; SignalDNSReady])
  (* lines 228-233, then the deferred calls *)
  | AtActiveSelect, CtxDone =>
      if ctxErr s
      then let (o, tr) := cancelAndDrain s in
           Some (continueAt Returned s o,
                 Warn "context canceled: exiting loop" :: tr
                 ++ match o with Ok _ => [Warn "loop exited"; WgDone] | _ => [] end)
      else None
  (* lines 234-238 *)
  | AtActiveSelect, Receive Restart =>
      Some (goto AtLoopHead (setTriggeredRestart true s), [Info "restarting"])
  (* lines 239-240 *)
  | AtActiveSelect, Receive Start => Some (s, [Info "already started"])
  (* lines 241-247 *)
  | AtActiveSelect, Receive Stop =>
      let (o, tr) := cancelAndDrain s in
      Some (continueAt AtLoopHead s
              (match o with Ok s' => Ok (setEnabled false s') | Blocks => Blocks | Panics => Panics end),
            Info "stopping" :: tr)
  (* lines 248-250: err := <-waitError is taken only if it can proceed *)
  | AtActiveSelect, ProcessExit err =>
      match recv (waitError s) with
      | Ok c1 =>
          match close c1 with
          | Ok c2 =>
              Some (goto (AtFallback err)
                      (setUnboundCancel (cancel (unboundCancel s)) (setWaitError c2 s)),
                    map RecvWaitError (chanOwner s) ++ map CloseWaitError (chanOwner s)
                    ++ [Cancel (currentPid s)])
          | _ => Some (goto Panicked s, map RecvWaitError (chanOwner s))
          end
      | _ => None
      end
  (* lines 198-200, 212-214, 251-253: fallback, then logAndWait *)
  | AtFallback err, Returns r =>
      Some (goto AtLogAndWaitSelect s,
            useUnencryptedDNS true (l_settings s) r ++ logAndWait_enter err)
  | AtLogAndWaitSelect, _ => logAndWait s e
  | _, _ => None
  end.

(** [NewLooper] followed by the call of [Run]: nothing is cancelled,
    [unboundCancel] is [func() {}], [waitError] is nil. *)
Definition initial (st : DNS) : state :=
  {| at_pc := AtInitialDNS; l_settings := st; ctxErr := false;
     settings_snapshot := st; triggeredRestart := false;
     unboundCancel := None; waitError := None;
     retired := []; dropped := []; nextPid := 0 |}.

(** An execution: the events the environment supplies, in order, and the
    trace of actions the loop produces. *)
Fixpoint execute (s : state) (evs : list event) : option (state * list action) :=
  match evs with
  | [] => Some (s, [])
  | e :: rest =>
      match Run s e with
      | None => None
      | Some (s1, tr1) =>
          match execute s1 rest with
          | None => None
          | Some (s2, tr2) => Some (s2, tr1 ++ tr2)
          end
      end
  end.


(** *** Instances alive and exit signals consumed *)

(** A process is live from the moment [l.conf.Start] succeeded until its
    cancel function is called. *)
Definition isLive (p : process) : bool := started p && negb (cancelled p).

(** The exit signal of a channel was consumed exactly once and the channel
    closed. *)
Definition isDrainedOnce (c : channel) : bool :=
  Nat.eqb (received c) 1 && closed c.

(** Every process made so far. *)
Definition processes (s : state) : list process :=
  optList (unboundCancel s) ++ retired s.

(** Every [waitError] channel made so far. *)
Definition channels (s : state) : list channel :=
  optList (waitError s) ++ dropped s.

Definition liveCount (s : state) : nat :=
  length (filter isLive (processes s)).

(** No instance runs and no exit-wait goroutine is left with an unconsumed
    value. *)
Definition inactive (s : state) : bool :=
  forallb (fun p => negb (isLive p)) (processes s)
  && forallb isDrainedOnce (channels s).

(** The current process runs and its exit signal is still to come. *)
Definition running (s : state) : Prop :=
  exists p c,
    unboundCancel s = Some p /\ isLive p = true /\
    waitError s = Some c /\ owner c = pid p /\ received c = 0 /\ closed c = false.

Definition procIdle (s : state) : Prop :=
  forallb (fun p => negb (isLive p)) (optList (unboundCancel s)) = true.

Definition chanIdle (s : state) : Prop :=
  forallb isDrainedOnce (optList (waitError s)) = true.

Definition idle (s : state) : Prop := procIdle s /\ chanIdle s.

Definition mayRun (s : state) : Prop :=
  isEnabled s = true \/ ctxErr s = true.

(** The invariant of [Run], program point by program point. *)
Definition invariant (s : state) : Prop :=
  forallb (fun p => negb (isLive p)) (retired s) = true /\
  forallb isDrainedOnce (dropped s) = true /\
  match at_pc s with
  | AtInitialDNS | AtFirstStartSelect | AtFirstStartReturned =>
      unboundCancel s = None /\ waitError s = None
  | AtLoopHead =>
      if triggeredRestart s then running s /\ mayRun s else idle s
  | AtSubsequentStartSelect =>
      triggeredRestart s = false /\ idle s /\ isEnabled s = false
  | AtDownloadRootHints | AtDownloadRootKey | AtMakeUnboundConf
  | AtLogAndWaitSelect =>
      mayRun s /\ if triggeredRestart s then running s else idle s
  | AtConfStart =>
      triggeredRestart s = false /\ mayRun s /\ chanIdle s /\
      exists p, unboundCancel s = Some p /\ started p = false /\ cancelled p = false
  | AtUseDNSSystemWide | AtWaitForUnbound =>
      triggeredRestart s = false /\ mayRun s /\ chanIdle s /\
      exists p, unboundCancel s = Some p /\ isLive p = true
  | AtActiveSelect =>
      triggeredRestart s = false /\ mayRun s /\ running s
  | AtFallback _ =>
      triggeredRestart s = false /\ mayRun s /\ idle s
  | Returned => procIdle s /\ ctxErr s = true
  | Blocked | Panicked => False
  end.

Lemma invariant_initial st : invariant (initial st).
Proof. repeat split. Qed.

Ltac unfold_state :=
  unfold running, idle, procIdle, chanIdle, mayRun, isEnabled, isLive,
    isDrainedOnce, cancelAndDrain, continueAt, newContext, makeWaitError,
    markStarted, takeSnapshot, setEnabled, setTriggeredRestart,
    setUnboundCancel, setWaitError, setCtxErr, goto, cancel, recv, close,
    currentPid, chanOwner, optList in *;
  cbn [at_pc l_settings ctxErr settings_snapshot triggeredRestart
       unboundCancel waitError retired dropped nextPid
       pid started cancelled owner received closed Enabled withEnabled
       forallb app negb andb] in *.

Ltac break_hyps :=
  repeat match goal with
  | H : _ /\ _ |- _ => destruct H
  | H : exists _, _ |- _ => destruct H
  | H : False |- _ => destruct H
  | H : Some _ = Some _ |- _ => injection H as H; subst
  | H : (_, _) = (_, _) |- _ => injection H as H; subst
  | H : None = Some _ |- _ => discriminate H
  | H : Some _ = None |- _ => discriminate H
  | H : true = false |- _ => discriminate H
  | H : false = true |- _ => discriminate H
  | H : andb _ _ = true |- _ => apply andb_true_iff in H
  | H : _ \/ _ |- _ => destruct H
  end.

Ltac step_cases :=
  repeat first
    [ progress break_hyps
    | progress subst
    | match goal with
      | H : context [if ?b then _ else _] |- _ => destruct b eqn:?
      | H : context [match ?x with _ => _ end] |- _ => destruct x eqn:?
      end ].

Ltac split_goal :=
  cbn in *;
  repeat match goal with
  | |- _ /\ _ => split
  | |- exists _, _ => eexists
  end;
  try reflexivity; try assumption; try discriminate; auto.

Ltac bool_cases :=
  repeat match goal with
  | x : process |- _ => destruct x as [? [] []]
  | c : channel |- _ => destruct c as [? ? []]
  end;
  cbn in *; subst; try discriminate; try congruence; auto.

Ltac enabled_cases :=
  repeat match goal with
  | H : Enabled _ = _ |- _ => rewrite H in *; clear H
  end;
  cbn in *; try discriminate; auto.

(** Every step of [Run] keeps the invariant. *)
Lemma Run_invariant s e s' tr :
  invariant s -> Run s e = Some (s', tr) -> invariant s'.
Proof.
  intros Hinv Hrun.
  destruct s as [l st cx snap trig uc we ret drp np].
  unfold invariant, Run, waitForFirstStart, waitForSubsequentStart, logAndWait in *.
  cbn [at_pc l_settings ctxErr settings_snapshot triggeredRestart
       unboundCancel waitError retired dropped nextPid] in *.
  destruct Hinv as (Hret & Hdrp & Hpc).
  destruct l; destruct e as [| [] | | | | [] |]; unfold_state;
    try discriminate Hrun.
  all: step_cases.
  all: try discriminate.
  all: split_goal.
  all: bool_cases.
  all: rewrite ?Hret, ?Hdrp; cbn; auto.
  all: enabled_cases.
Qed.

Lemma execute_app s evs1 evs2 :
  execute s (evs1 ++ evs2) =
  match execute s evs1 with
  | None => None
  | Some (s1, tr1) =>
      match execute s1 evs2 with
      | None => None
      | Some (s2, tr2) => Some (s2, tr1 ++ tr2)
      end
  end.
Proof.
  revert s. induction evs1 as [|e evs1 IH]; intros s; cbn.
  - destruct (execute s evs2) as [[s2 tr2]|]; reflexivity.
  - destruct (Run s e) as [[s1 tr1]|]; [|reflexivity].
    rewrite IH. destruct (execute s1 evs1) as [[s2 tr2]|]; [|reflexivity].
    destruct (execute s2 evs2) as [[s3 tr3]|]; [|reflexivity].
    now rewrite app_assoc.
Qed.

Lemma execute_invariant evs : forall s s' tr,
  invariant s -> execute s evs = Some (s', tr) -> invariant s'.
Proof.
  induction evs as [|e evs IH]; intros s s' tr Hinv Hex; cbn in Hex.
  - now injection Hex as <- _.
  - destruct (Run s e) as [[s1 tr1]|] eqn:Hrun; [|discriminate].
    destruct (execute s1 evs) as [[s2 tr2]|] eqn:Hrest; [|discriminate].
    injection Hex as <- _.
    eapply IH; [|exact Hrest]. eapply Run_invariant; eassumption.
Qed.

Lemma reachable_invariant st evs s tr :
  execute (initial st) evs = Some (s, tr) -> invariant s.
Proof. apply execute_invariant, invariant_initial. Qed.

Lemma filter_none {A} (f : A -> bool) l :
  forallb (fun a => negb (f a)) l = true -> filter f l = [].
Proof.
  induction l as [|a l IH]; cbn; [reflexivity|].
  intros H. apply andb_true_iff in H as [Ha Hl].
  destruct (f a); [discriminate | auto].
Qed.

Lemma invariant_liveCount s : invariant s -> liveCount s <= 1.
Proof.
  intros (Hret & _ & _). unfold liveCount, processes.
  rewrite filter_app, (filter_none _ _ Hret), app_nil_r.
  destruct (unboundCancel s) as [p|]; cbn; [|lia].
  destruct (isLive p); cbn; lia.
Qed.

(** At the call of [l.conf.Start] nothing runs and nothing is left to
    drain. *)
Lemma invariant_AtConfStart s :
  invariant s -> at_pc s = AtConfStart -> inactive s = true.
Proof.
  intros (Hret & Hdrp & Hpc) Hat. rewrite Hat in Hpc.
  destruct Hpc as (_ & _ & Hch & p & Hp & Hs & Hc).
  unfold inactive, processes, channels, chanIdle in *.
  rewrite !forallb_app, Hret, Hdrp, Hch, Hp. cbn.
  unfold isLive. now rewrite Hs.
Qed.

(** The deferred teardown of lines 188-193, from any state the invariant
    allows. *)
Lemma invariant_deferred_teardown s :
  invariant s -> at_pc s = AtMakeUnboundConf -> triggeredRestart s = true ->
  exists p s',
    currentPid s = Some p /\
    Run s (Returns None) =
      Some (s', [MakeUnboundConf; Cancel (Some p); RecvWaitError p; CloseWaitError p]) /\
    at_pc s' = AtConfStart /\
    retired s' = optList (cancel (unboundCancel s)) ++ retired s.
Proof.
  intros (_ & _ & Hpc) Hat Htr. rewrite Hat, Htr in Hpc.
  destruct Hpc as (_ & p & c & Hp & Hl & Hc & Ho & Hr & Hcl).
  destruct s as [l st cx snap trig uc we ret drp np]; cbn in *; subst.
  exists (pid p). eexists. unfold Run, cancelAndDrain. cbn.
  rewrite Hcl, Hr. cbn. rewrite Ho. repeat split.
Qed.

(** The case [<-ctx.Done()] of the Active select (lines 228-233) on its
    own: cancel, one receive, close, return; nothing is left running or
    undrained. *)
Lemma Active_CtxDone_drains_once s :
  invariant s -> at_pc s = AtActiveSelect -> ctxErr s = true ->
  exists p s',
    Run s CtxDone =
      Some (s', [Warn "context canceled: exiting loop"; Cancel (Some p);
                 RecvWaitError p; CloseWaitError p; Warn "loop exited"; WgDone]) /\
    at_pc s' = Returned /\ inactive s' = true.
Proof.
  intros (Hret & Hdrp & Hpc) Hat Hcx. rewrite Hat in Hpc.
  destruct Hpc as (_ & _ & p & c & Hp & Hl & Hc & Ho & Hr & Hcl).
  destruct s as [l st cx snap trig uc we ret drp np]; cbn in *; subst.
  exists (pid p). eexists. unfold Run, cancelAndDrain. cbn.
  rewrite Hcl, Hr. cbn. rewrite Ho. split; [reflexivity|]. split; [reflexivity|].
  unfold inactive, processes, channels. cbn.
  rewrite Hret, Hdrp. unfold isLive. cbn. now rewrite andb_false_r.
Qed.

(** *** What the trace shows of instances and exit signals *)

(** Replaying a trace.  [live] holds the handles with which [l.conf.Start]
    was called and whose cancel function has not been called since;
    [waiting] the handles whose exit-wait goroutine (lines 218-221) was
    started and whose value has not been received since. *)
Record ledger := { live : list nat; waiting : list nat }.

Definition noLedger : ledger := {| live := []; waiting := [] |}.

Definition without (h : nat) (l : list nat) : list nat :=
  filter (fun x => negb (Nat.eqb x h)) l.

(** One action of the trace.  [None]: the action breaks the discipline of
    the specification: [l.conf.Start] called while a handle is live or an
    exit signal is outstanding; a receive on [waitError] with no value
    outstanding on it (a second receive); a second exit-wait goroutine for
    the same handle; a close before the value was received. *)
Definition record (a : action) (g : ledger) : option ledger :=
  match a with
  | ConfStart h =>
      match live g, waiting g with
      | [], [] => Some {| live := [h]; waiting := [] |}
      | _, _ => None
      end
  | Cancel (Some h) => Some {| live := without h (live g); waiting := waiting g |}
  | GoWaitFn h =>
      if existsb (Nat.eqb h) (waiting g) then None
      else Some {| live := live g; waiting := h :: waiting g |}
  | RecvWaitError h =>
      if existsb (Nat.eqb h) (waiting g)
      then Some {| live := live g; waiting := without h (waiting g) |}
      else None
  | CloseWaitError h =>
      if existsb (Nat.eqb h) (waiting g) then None else Some g
  | _ => Some g
  end.

Fixpoint audit (tr : list action) (g : ledger) : option ledger :=
  match tr with
  | [] => Some g
  | a :: rest =>
      match record a g with
      | Some g1 => audit rest g1
      | None => None
      end
  end.

(** The value of the sender has not been received and the channel is
    open. *)
Definition isPending (c : channel) : bool :=
  Nat.eqb (received c) 0 && negb (closed c).

(** The same two lists read off the state: the live processes and the
    channels with a value outstanding, over everything made so far. *)
Definition ledgerOf (s : state) : ledger :=
  {| live := map pid (filter isLive (processes s));
     waiting := map owner (filter isPending (channels s)) |}.

Definition currentLedger (s : state) : ledger :=
  {| live := map pid (filter isLive (optList (unboundCancel s)));
     waiting := map owner (filter isPending (optList (waitError s))) |}.

Lemma audit_app tr1 tr2 g :
  audit (tr1 ++ tr2) g =
  match audit tr1 g with
  | Some g1 => audit tr2 g1
  | None => None
  end.
Proof.
  revert g. induction tr1 as [|a tr1 IH]; intros g; cbn; [reflexivity|].
  destruct (record a g) as [g1|]; [apply IH | reflexivity].
Qed.

Lemma audit_useUnencryptedDNS fallback st r g :
  audit (useUnencryptedDNS fallback st r) g = Some g.
Proof.
  unfold useUnencryptedDNS.
  destruct (PlaintextAddress st); [destruct r; reflexivity|].
  destruct (firstProviderIPv4 (Providers st)); [destruct r; reflexivity | reflexivity].
Qed.

Lemma invariant_ledgerOf s : invariant s -> ledgerOf s = currentLedger s.
Proof.
  intros (Hret & Hdrp & _). unfold ledgerOf, currentLedger, processes, channels.
  rewrite !filter_app, (filter_none _ _ Hret), app_nil_r.
  replace (filter isPending (dropped s)) with (@nil channel);
    [now rewrite app_nil_r|].
  symmetry. apply filter_none.
  clear - Hdrp. induction (dropped s) as [|c l IH]; cbn in *; [reflexivity|].
  apply andb_true_iff in Hdrp as [Hc Hl]. rewrite (IH Hl), andb_true_r.
  unfold isDrainedOnce, isPending in *.
  apply andb_true_iff in Hc as [_ ->]. now rewrite andb_false_r.
Qed.

Ltac ledger_finish :=
  repeat match goal with
  | H : Nat.eqb _ _ = true |- _ => apply Nat.eqb_eq in H; subst
  | H : context [andb _ false] |- _ => rewrite andb_false_r in H
  | H : context [andb _ true] |- _ => rewrite andb_true_r in H
  end;
  try discriminate;
  repeat (rewrite ?Nat.eqb_refl, ?andb_false_r, ?andb_true_r, ?orb_false_r; cbn);
  try reflexivity.

(** Every step of [Run] moves the ledger of the state as its actions move
    the ledger of the trace, and none of its actions breaks the
    discipline. *)
Lemma Run_audit s e s' tr :
  invariant s -> Run s e = Some (s', tr) ->
  audit tr (currentLedger s) = Some (currentLedger s').
Proof.
  intros Hinv Hrun.
  destruct s as [l st cx snap trig uc we ret drp np].
  unfold invariant, Run, waitForFirstStart, waitForSubsequentStart, logAndWait in *.
  cbn [at_pc l_settings ctxErr settings_snapshot triggeredRestart
       unboundCancel waitError retired dropped nextPid] in *.
  destruct Hinv as (Hret & Hdrp & Hpc).
  destruct l; destruct e as [| [] | | | | [] |]; unfold_state;
    try discriminate Hrun.
  all: step_cases.
  all: try discriminate.
  all: rewrite ?audit_app, ?audit_useUnencryptedDNS.
  all: unfold currentLedger, isPending, isLive, without; cbn.
  all: bool_cases.
  all: ledger_finish.
Qed.

Lemma execute_audit_from evs : forall s s' tr,
  invariant s -> execute s evs = Some (s', tr) ->
  audit tr (currentLedger s) = Some (currentLedger s').
Proof.
  induction evs as [|e evs IH]; intros s s' tr Hinv Hex; cbn in Hex.
  - now injection Hex as <- <-.
  - destruct (Run s e) as [[s1 tr1]|] eqn:Hrun; [|discriminate].
    destruct (execute s1 evs) as [[s2 tr2]|] eqn:Hrest; [|discriminate].
    injection Hex as <- <-.
    rewrite audit_app, (Run_audit _ _ _ _ Hinv Hrun).
    eapply IH; [|exact Hrest]. eapply Run_invariant; eassumption.
Qed.

(** The ledger of the trace of an execution is the ledger of the state it
    reaches: the trace never breaks the discipline, the handles it leaves
    live are the live processes of the state, and the exit signals it
    leaves outstanding are those of the state. *)
Lemma execute_audit st evs s tr :
  execute (initial st) evs = Some (s, tr) ->
  audit tr noLedger = Some (ledgerOf s).
Proof.
  intros Hex. rewrite (invariant_ledgerOf s (reachable_invariant _ _ _ _ Hex)).
  exact (execute_audit_from _ _ _ _ (invariant_initial st) Hex).
Qed.

Ltac record_cases H :=
  cbn in H;
  repeat match type of H with
  | context [match ?x with _ => _ end] => destruct x eqn:?
  | context [if ?b then _ else _] => destruct b eqn:?
  end;
  try discriminate H; injection H as <-.

Lemma audit_live_le tr : forall g g',
  audit tr g = Some g' -> length (live g) <= 1 -> length (live g') <= 1.
Proof.
  induction tr as [|a tr IH]; intros g g' Ha Hg; cbn in Ha.
  - now injection Ha as <-.
  - destruct (record a g) as [g1|] eqn:Hrec; [|discriminate].
    apply (IH _ _ Ha).
    destruct a; record_cases Hrec; cbn; try exact Hg; try lia.
    unfold without.
    match goal with |- context [filter ?f ?l] =>
      pose proof (filter_length_le f l) end.
    lia.
Qed.

Lemma In_without h h0 l : In h l -> h <> h0 -> In h (without h0 l).
Proof.
  intros Hin Hne. apply filter_In. split; [exact Hin|].
  apply negb_true_iff, Nat.eqb_neq, Hne.
Qed.

Ltac dropped_or_kept h Hh :=
  match goal with
  | |- context [without ?n _] =>
      destruct (Nat.eq_dec h n) as [->|?];
      [now right; right | left; now apply In_without]
  end.

(** A handle that the replay does not hold live any more was cancelled. *)
Lemma audit_cancelled tr : forall g g' h,
  audit tr g = Some g' ->
  In h (live g) \/ In (ConfStart h) tr ->
  In h (live g') \/ In (Cancel (Some h)) tr.
Proof.
  induction tr as [|a tr IH]; intros g g' h Ha Hh; cbn in Ha.
  - injection Ha as <-. destruct Hh as [Hh|[]]. now left.
  - destruct (record a g) as [g1|] eqn:Hrec; [|discriminate].
    assert (Hnext : In h (live g1) \/ In (ConfStart h) tr \/ a = Cancel (Some h)).
    { destruct Hh as [Hh|[Hh|Hh]]; [| |now right; left].
      - destruct a; record_cases Hrec; cbn; try (left; exact Hh).
        + destruct Hh.
        + dropped_or_kept h Hh.
      - subst a. record_cases Hrec. left. now left. }
    destruct Hnext as [Hl|[Ht|Hc]].
    + destruct (IH _ _ h Ha (or_introl Hl)) as [H|H]; [now left | right; now right].
    + destruct (IH _ _ h Ha (or_intror Ht)) as [H|H]; [now left | right; now right].
    + right. now left.
Qed.

(** A value that the replay does not hold outstanding any more was
    received. *)
Lemma audit_received tr : forall g g' h,
  audit tr g = Some g' ->
  In h (waiting g) \/ In (GoWaitFn h) tr ->
  In h (waiting g') \/ In (RecvWaitError h) tr.
Proof.
  induction tr as [|a tr IH]; intros g g' h Ha Hh; cbn in Ha.
  - injection Ha as <-. destruct Hh as [Hh|[]]. now left.
  - destruct (record a g) as [g1|] eqn:Hrec; [|discriminate].
    assert (Hnext : In h (waiting g1) \/ In (GoWaitFn h) tr \/ a = RecvWaitError h).
    { destruct Hh as [Hh|[Hh|Hh]]; [| |now right; left].
      - destruct a; record_cases Hrec; cbn; try (left; exact Hh).
        + left. now right.
        + dropped_or_kept h Hh.
      - subst a. record_cases Hrec. left. now left. }
    destruct Hnext as [Hl|[Ht|Hc]].
    + destruct (IH _ _ h Ha (or_introl Hl)) as [H|H]; [now left | right; now right].
    + destruct (IH _ _ h Ha (or_intror Ht)) as [H|H]; [now left | right; now right].
    + right. now left.
Qed.

(** What a trace that replays without a break shows at each of its
    instants. *)
Lemma audit_instants tr g :
  audit tr noLedger = Some g ->
  forall before after, tr = before ++ after ->
    exists g1,
      audit before noLedger = Some g1 /\ length (live g1) <= 1 /\
      (forall h rest, after = ConfStart h :: rest ->
         live g1 = [] /\ waiting g1 = [] /\
         (forall h', In (ConfStart h') before -> In (Cancel (Some h')) before) /\
         (forall h', In (GoWaitFn h') before -> In (RecvWaitError h') before)).
Proof.
  intros Ha before after ->. rewrite audit_app in Ha.
  destruct (audit before noLedger) as [g1|] eqn:Hb; [|discriminate].
  exists g1. split; [reflexivity|].
  split; [apply (audit_live_le _ _ _ Hb); cbn; lia|].
  intros h rest ->. cbn in Ha.
  destruct (live g1) eqn:Hl; [|discriminate].
  destruct (waiting g1) eqn:Hw; [|discriminate].
  repeat split.
  - intros h' Hin.
    destruct (audit_cancelled _ _ _ h' Hb (or_intror Hin)) as [H|H]; [|exact H].
    rewrite Hl in H. destruct H.
  - intros h' Hin.
    destruct (audit_received _ _ _ h' Hb (or_intror Hin)) as [H|H]; [|exact H].
    rewrite Hw in H. destruct H.
Qed.

(** C1.  In every execution of [Run]:
    at most one resolver instance is live in the state reached, and
    whenever [l.conf.Start] is about to be called none is live and no exit
    signal is left to drain;
    on the deferred teardown after a Restart (lines 188-193) the step that
    leads to [l.conf.Start] cancels the running instance, receives its
    exit signal once and closes the channel;
    and the trace itself shows it, at each of its instants: replaying any
    prefix of the trace, at most one handle was passed to [l.conf.Start]
    and not cancelled since, no receive on [waitError] took place without
    a value outstanding, and at each call of [l.conf.Start] every handle
    launched before has had its cancel function called and every exit-wait
    goroutine started before has had its value received.  The ledger of
    the whole trace is the ledger of the state.
    An instance whose readiness wait failed is cancelled at line 211
    before line 218 is reached: no exit-wait goroutine exists for it and
    nothing is ever received for it. *)
Theorem Run_no_overlap st evs s tr :
  execute (initial st) evs = Some (s, tr) ->
  liveCount s <= 1 /\
  (at_pc s = AtConfStart -> inactive s = true) /\
  (at_pc s = AtMakeUnboundConf -> triggeredRestart s = true ->
   exists p s',
     currentPid s = Some p /\
     Run s (Returns None) =
       Some (s', [MakeUnboundConf; Cancel (Some p); RecvWaitError p; CloseWaitError p]) /\
     at_pc s' = AtConfStart /\ inactive s' = true) /\
  audit tr noLedger = Some (ledgerOf s) /\
  (forall before after, tr = before ++ after ->
   exists g,
     audit before noLedger = Some g /\ length (live g) <= 1 /\
     (forall h rest, after = ConfStart h :: rest ->
        live g = [] /\ waiting g = [] /\
        (forall h', In (ConfStart h') before -> In (Cancel (Some h')) before) /\
        (forall h', In (GoWaitFn h') before -> In (RecvWaitError h') before))).
Proof.
  intros Hex. pose proof (reachable_invariant _ _ _ _ Hex) as Hinv.
  split; [now apply invariant_liveCount|].
  split; [now apply invariant_AtConfStart|].
  split.
  - intros Hat Htr.
    destruct (invariant_deferred_teardown s Hinv Hat Htr) as (p & s' & Hp & Hrun & Hat' & _).
    exists p, s'. repeat split; try assumption.
    apply invariant_AtConfStart; [|assumption].
    eapply Run_invariant; eassumption.
  - pose proof (execute_audit _ _ _ _ Hex) as Ha.
    split; [exact Ha|]. exact (audit_instants _ _ Ha).
Qed.

Definition isCommand (e : event) : bool :=
  match e with
  | Receive _ => true
  | _ => false
  end.

(** Events other than a command and than a select that takes
    [<-ctx.Done()].  The cancellation of the context itself is among
    them. *)
Definition isQuiet (e : event) : bool :=
  match e with
  | Receive _ | CtxDone => false
  | _ => true
  end.

(** The loop is disabled and waits, or has returned, with nothing running
    and nothing left to drain. *)
Definition parked (s : state) : Prop :=
  isEnabled s = false /\ inactive s = true /\
  (at_pc s = AtFirstStartSelect \/ at_pc s = AtSubsequentStartSelect \/
   at_pc s = AtLoopHead \/ at_pc s = Returned).

Lemma Stop_parks s s' tr :
  invariant s -> Run s (Receive Stop) = Some (s', tr) -> parked s'.
Proof.
  intros Hinv Hrun.
  destruct s as [l st1 cx snap trig uc we ret drp np].
  destruct Hinv as (Hret & Hdrp & Hpc).
  unfold Run, waitForFirstStart, waitForSubsequentStart, logAndWait in Hrun.
  cbn [at_pc l_settings ctxErr settings_snapshot triggeredRestart
       unboundCancel waitError retired dropped nextPid] in *.
  unfold parked, inactive, processes, channels.
  destruct l; unfold_state; try discriminate Hrun.
  all: step_cases.
  all: try discriminate.
  all: cbn; rewrite ?forallb_app, ?Hret, ?Hdrp; cbn.
  all: bool_cases.
  all: enabled_cases.
  all: repeat split; auto.
Qed.

Lemma parked_quiet s e s' tr :
  parked s -> isQuiet e = true -> Run s e = Some (s', tr) -> parked s'.
Proof.
  intros (Hen & Hin & Hat) Hq Hrun.
  destruct s as [l st1 cx snap trig uc we ret drp np].
  unfold Run, waitForFirstStart, waitForSubsequentStart, logAndWait in Hrun.
  unfold parked, inactive, processes, channels, isEnabled in *.
  cbn [at_pc l_settings ctxErr settings_snapshot triggeredRestart
       unboundCancel waitError retired dropped nextPid] in *.
  destruct Hat as [-> | [-> | [-> | ->]]];
    destruct e as [| [] | | | | [] |]; try discriminate Hq; try discriminate Hrun.
  all: cbn in Hrun.
  all: rewrite ?Hen in Hrun; try destruct cx; cbn in Hrun; injection Hrun as <- <-.
  all: unfold_state; cbn; rewrite ?Hen.
  all: repeat split; auto.
  all: destruct uc as [[? [] []]|]; cbn in *; auto; discriminate.
Qed.

Lemma parked_execute evs : forall s s' tr,
  parked s -> forallb isQuiet evs = true ->
  execute s evs = Some (s', tr) -> parked s'.
Proof.
  induction evs as [|e evs IH]; intros s s' tr Hp Hq Hex; cbn in Hex.
  - now injection Hex as <- _.
  - cbn in Hq. apply andb_true_iff in Hq as [He Hq].
    destruct (Run s e) as [[s1 tr1]|] eqn:Hrun; [|discriminate].
    destruct (execute s1 evs) as [[s2 tr2]|] eqn:Hrest; [|discriminate].
    injection Hex as <- _.
    eapply IH; [|exact Hq|exact Hrest]. eapply parked_quiet; eassumption.
Qed.

(** The settings are disabled and line 168 is out of reach: the only
    writes of [Enabled] left are those of a command. *)
Definition disabled (s : state) : Prop :=
  isEnabled s = false /\ (at_pc s = AtFirstStartReturned -> ctxErr s = true).

Lemma disabled_step s e s' tr :
  disabled s -> isCommand e = false -> Run s e = Some (s', tr) -> disabled s'.
Proof.
  intros (Hen & Hat) Hq Hrun.
  destruct s as [l st1 cx snap trig uc we ret drp np].
  unfold Run, waitForFirstStart, waitForSubsequentStart, logAndWait in Hrun.
  unfold disabled, isEnabled in *.
  cbn [at_pc l_settings ctxErr settings_snapshot triggeredRestart
       unboundCancel waitError retired dropped nextPid] in *.
  destruct l; destruct e as [| [] | | | | [] |];
    try discriminate Hq; try discriminate Hrun.
  all: unfold_state; rewrite ?Hen in Hrun.
  all: try (specialize (Hat eq_refl); subst cx).
  all: step_cases; try discriminate.
  all: cbn; split; auto; try discriminate.
Qed.

Lemma disabled_execute evs : forall s s' tr,
  disabled s -> forallb (fun e => negb (isCommand e)) evs = true ->
  execute s evs = Some (s', tr) -> disabled s'.
Proof.
  induction evs as [|e evs IH]; intros s s' tr Hp Hq Hex; cbn in Hex.
  - now injection Hex as <- _.
  - cbn in Hq. apply andb_true_iff in Hq as [He Hq].
    apply negb_true_iff in He.
    destruct (Run s e) as [[s1 tr1]|] eqn:Hrun; [|discriminate].
    destruct (execute s1 evs) as [[s2 tr2]|] eqn:Hrest; [|discriminate].
    injection Hex as <- _.
    eapply IH; [|exact Hq|exact Hrest]. eapply disabled_step; eassumption.
Qed.

Lemma parked_disabled s : parked s -> disabled s.
Proof.
  intros (Hen & _ & Hat). split; [exact Hen|].
  intros H. rewrite H in Hat.
  destruct Hat as [Hat | [Hat | [Hat | Hat]]]; discriminate Hat.
Qed.

Lemma inactive_ledgerOf s : inactive s = true -> ledgerOf s = noLedger.
Proof.
  unfold inactive, ledgerOf, noLedger. intros H.
  apply andb_true_iff in H as [Hp Hc].
  rewrite (filter_none _ _ Hp).
  replace (filter isPending (channels s)) with (@nil channel); [reflexivity|].
  symmetry. apply filter_none.
  induction (channels s) as [|c l IH]; cbn in *; [reflexivity|].
  apply andb_true_iff in Hc as [Hc Hl]. rewrite (IH Hl), andb_true_r.
  unfold isDrainedOnce, isPending in *.
  apply andb_true_iff in Hc as [_ ->]. now rewrite andb_false_r.
Qed.

(** C9.  Whatever happened before, once a Stop has been received and
    processed (in [waitForFirstStart], in [waitForSubsequentStart] or in
    the Active select):
    the stored settings have [Enabled = false] for as long as no further
    command is received, whatever else happens;
    and for as long as, besides, no select takes [<-ctx.Done()], no
    resolver instance runs and every exit signal has been drained, which
    the trace shows: replayed, it leaves no handle live and no value
    outstanding; every handle passed to [l.conf.Start] has had its cancel
    function called, and every exit-wait goroutine has had its value
    received.
    When the select of [waitForSubsequentStart] takes [<-ctx.Done()],
    line 149 returns to line 172 and [Run] goes through one more setup
    before it returns. *)
Theorem Stop_processed st evs later s tr :
  execute (initial st) (evs ++ Receive Stop :: later) = Some (s, tr) ->
  forallb (fun e => negb (isCommand e)) later = true ->
  isEnabled s = false /\
  (forallb isQuiet later = true ->
   inactive s = true /\
   audit tr noLedger = Some noLedger /\
   (forall h, In (ConfStart h) tr -> In (Cancel (Some h)) tr) /\
   (forall h, In (GoWaitFn h) tr -> In (RecvWaitError h) tr)).
Proof.
  intros Hall Hcmd.
  pose proof (execute_audit _ _ _ _ Hall) as Haudit.
  revert Hall. rewrite execute_app.
  destruct (execute (initial st) evs) as [[s1 tr1]|] eqn:Hex; [|discriminate].
  pose proof (reachable_invariant _ _ _ _ Hex) as Hinv.
  cbn [execute].
  destruct (Run s1 (Receive Stop)) as [[s2 tr2]|] eqn:Hrun; [|discriminate].
  destruct (execute s2 later) as [[s3 tr3]|] eqn:Hlater; [|discriminate].
  intros H. injection H as <- <-.
  pose proof (Stop_parks _ _ _ Hinv Hrun) as Hp.
  split.
  - exact (proj1 (disabled_execute _ _ _ _ (parked_disabled _ Hp) Hcmd Hlater)).
  - intros Hq.
    destruct (parked_execute _ _ _ _ Hp Hq Hlater) as (_ & Hin & _).
    rewrite (inactive_ledgerOf _ Hin) in Haudit.
    split; [exact Hin|]. split; [exact Haudit|]. split.
    + intros h Hh.
      destruct (audit_cancelled _ _ _ h Haudit (or_intror Hh)) as [[]|H]; exact H.
    + intros h Hh.
      destruct (audit_received _ _ _ h Haudit (or_intror Hh)) as [[]|H]; exact H.
Qed.

(** C8 (as amended).  In every reachable state of [Run]:
    the loop is neither blocked nor panicked, and it has returned only if
    the context was cancelled;
    a setup failure is logged and followed by the 10-second timer;
    a launch, readiness or unexpected-exit failure first cancels the
    instance and engages the plaintext fallback, and only then is logged
    and followed by the 10-second timer;
    the wait ends when the timer fires or, once the context is cancelled,
    at once; and when the context is not cancelled the loop goes back to
    the first setup call without any command. *)
Theorem failure_recovery st evs s tr :
  execute (initial st) evs = Some (s, tr) ->
  (at_pc s <> Blocked /\ at_pc s <> Panicked /\
   (at_pc s = Returned -> ctxErr s = true)) /\
  (forall err,
     (at_pc s = AtDownloadRootHints ->
      Run s (Returns (Some err)) =
        Some (goto AtLogAndWaitSelect s, DownloadRootHints :: logAndWait_enter err)) /\
     (at_pc s = AtDownloadRootKey ->
      Run s (Returns (Some err)) =
        Some (goto AtLogAndWaitSelect s, DownloadRootKey :: logAndWait_enter err)) /\
     (at_pc s = AtMakeUnboundConf ->
      Run s (Returns (Some err)) =
        Some (goto AtLogAndWaitSelect s, MakeUnboundConf :: logAndWait_enter err))) /\
  (forall err r,
     (at_pc s = AtConfStart ->
      exists p s',
        execute s [Returns (Some err); Returns r] =
          Some (s', [ConfStart p; Cancel (Some p)]
                    ++ useUnencryptedDNS true (l_settings s) r
                    ++ logAndWait_enter err) /\
        at_pc s' = AtLogAndWaitSelect /\ liveCount s' = 0) /\
     (at_pc s = AtWaitForUnbound ->
      exists p s',
        execute s [Returns (Some err); Returns r] =
          Some (s', [WaitForUnbound; Cancel (Some p)]
                    ++ useUnencryptedDNS true (l_settings s) r
                    ++ logAndWait_enter err) /\
        at_pc s' = AtLogAndWaitSelect /\ liveCount s' = 0) /\
     (at_pc s = AtActiveSelect ->
      exists p s',
        execute s [ProcessExit err; Returns r] =
          Some (s', [RecvWaitError p; CloseWaitError p; Cancel (Some p)]
                    ++ useUnencryptedDNS true (l_settings s) r
                    ++ logAndWait_enter err) /\
        at_pc s' = AtLogAndWaitSelect /\ liveCount s' = 0)) /\
  (at_pc s = AtLogAndWaitSelect ->
   Run s TimerC = Some (goto AtLoopHead s, []) /\
   (ctxErr s = true -> Run s CtxDone = Some (goto AtLoopHead s, [TimerStop])) /\
   (ctxErr s = false ->
    Run s CtxDone = None /\
    execute s [TimerC; Tau] =
      Some (goto AtDownloadRootHints (takeSnapshot (goto AtLoopHead s)), []))).
Proof.
  intros Hex. pose proof (reachable_invariant _ _ _ _ Hex) as Hinv. clear Hex.
  destruct s as [l st1 cx snap trig uc we ret drp np].
  destruct Hinv as (Hret & Hdrp & Hpc).
  cbn [at_pc l_settings ctxErr settings_snapshot triggeredRestart
       unboundCancel waitError retired dropped nextPid] in *.
  split; [|split; [|split]].
  - destruct l; try contradiction; repeat split; try discriminate.
    intros _. apply Hpc.
  - intros err. repeat split; intros ->; reflexivity.
  - intros err r; repeat split; intros ->; unfold_state; break_hyps; subst.
    all: eexists (pid _), _; cbn.
    all: repeat match goal with
         | H : closed _ = false |- _ => rewrite H; clear H
         | H : received _ = 0 |- _ => rewrite H; clear H
         end; cbn.
    all: repeat match goal with H : owner _ = _ |- _ => rewrite H; clear H end.
    all: rewrite ?app_nil_r.
    all: repeat split.
    all: unfold liveCount, processes; cbn.
    all: unfold isLive; cbn; rewrite ?andb_false_r; cbn.
    all: now rewrite filter_none.
  - intros ->. unfold_state. cbn. split; [reflexivity|]. split.
    + intros ->. reflexivity.
    + intros ->. split; [reflexivity|]. cbn.
      destruct Hpc as [[He|Hc] _]; [|discriminate].
      unfold isEnabled, goto; cbn. now rewrite He.
Qed.


(** *** Further properties of [Run] over all executions *)

(** A property of the state and of the trace produced so far that every
    step keeps holds after every execution. *)
Lemma execute_trace_invariant (P : state -> list action -> Prop) :
  (forall s tr e s' tr',
     P s tr -> Run s e = Some (s', tr') -> P s' (tr ++ tr')) ->
  forall evs s tr0 s' tr,
    P s tr0 -> execute s evs = Some (s', tr) -> P s' (tr0 ++ tr).
Proof.
  intros Hstep. induction evs as [|e evs IH]; intros s tr0 s' tr HP Hex; cbn in Hex.
  - injection Hex as <- <-. now rewrite app_nil_r.
  - destruct (Run s e) as [[s1 tr1]|] eqn:Hrun; [|discriminate].
    destruct (execute s1 evs) as [[s2 tr2]|] eqn:Hrest; [|discriminate].
    injection Hex as <- <-. rewrite app_assoc.
    eapply IH; [|exact Hrest]. eapply Hstep; eassumption.
Qed.

Lemma dnsSwitches_app tr1 tr2 :
  dnsSwitches (tr1 ++ tr2) = dnsSwitches tr1 ++ dnsSwitches tr2.
Proof. apply filter_app. Qed.

(** The DNS switches made so far end with the switch to the local
    resolver, as far as the launch has got. *)
Definition pointsAtLoopback (s : state) (tr : list action) : Prop :=
  match at_pc s with
  | AtUseDNSSystemWide =>
      exists before, dnsSwitches tr = before ++ [UseDNSInternally net.loopback]
  | AtWaitForUnbound | AtActiveSelect =>
      exists before,
        dnsSwitches tr =
        before ++ applied net.loopback (KeepNameserver (settings_snapshot s))
  | _ => True
  end.

Lemma Run_pointsAtLoopback s tr e s' tr' :
  pointsAtLoopback s tr -> Run s e = Some (s', tr') ->
  pointsAtLoopback s' (tr ++ tr').
Proof.
  intros HP Hrun.
  destruct s as [l st cx snap trig uc we ret drp np].
  unfold pointsAtLoopback, Run, waitForFirstStart, waitForSubsequentStart,
    logAndWait, applied in *.
  cbn [at_pc l_settings ctxErr settings_snapshot triggeredRestart
       unboundCancel waitError retired dropped nextPid] in *.
  rewrite dnsSwitches_app.
  destruct l; destruct e as [| [] | | | | [] |]; unfold_state;
    try discriminate Hrun.
  all: step_cases.
  all: try discriminate.
  all: cbn; try exact I.
  all: rewrite ?app_nil_r; try (eexists; eassumption).
  all: try (eexists; reflexivity).
  all: try (match goal with H : dnsSwitches _ = _ |- _ => rewrite H end;
            rewrite <- app_assoc; eexists; reflexivity).
  all: destruct uc as [p|]; cbn; rewrite ?app_nil_r.
  all: try (eexists; reflexivity).
  all: match goal with H : dnsSwitches _ = _ |- _ => rewrite H end;
       eexists; reflexivity.
Qed.

(** X1.  Whenever [Run] waits in the Active select, the last DNS switches
    it made point the process and the system at the local resolver
    (127.0.0.1), with the [KeepNameserver] of the settings the cycle
    started with. *)
Theorem Active_points_at_loopback st evs s tr :
  execute (initial st) evs = Some (s, tr) ->
  at_pc s = AtActiveSelect ->
  exists before,
    dnsSwitches tr =
    before ++ [UseDNSInternally net.loopback;
               UseDNSSystemWide net.loopback (KeepNameserver (settings_snapshot s))].
Proof.
  intros Hex Hat.
  pose proof (execute_trace_invariant pointsAtLoopback Run_pointsAtLoopback
                evs (initial st) [] s tr I Hex) as HP.
  cbn [app] in HP. unfold pointsAtLoopback in HP. now rewrite Hat in HP.
Qed.

(** What the trace ends with while a cycle goes through its setup; [td] is
    the deferred teardown of a triggered restart, when there is one. *)
Definition setupDone (s : state) (tr : list action) : Prop :=
  match at_pc s with
  | AtDownloadRootKey => exists before, tr = before ++ [DownloadRootHints]
  | AtMakeUnboundConf =>
      exists before, tr = before ++ [DownloadRootHints; DownloadRootKey]
  | AtConfStart =>
      exists before td,
        tr = before ++ [DownloadRootHints; DownloadRootKey; MakeUnboundConf] ++ td /\
        (td = [] \/
         exists p, td = [Cancel (Some p); RecvWaitError p; CloseWaitError p])
  | _ => True
  end.

Lemma Run_setupDone s tr e s' tr' :
  invariant s /\ setupDone s tr -> Run s e = Some (s', tr') ->
  invariant s' /\ setupDone s' (tr ++ tr').
Proof.
  intros [Hinv HP] Hrun. split; [eapply Run_invariant; eassumption|].
  destruct s as [l st cx snap trig uc we ret drp np].
  destruct Hinv as (_ & _ & Hpc).
  unfold setupDone, Run, waitForFirstStart, waitForSubsequentStart, logAndWait in *.
  cbn [at_pc l_settings ctxErr settings_snapshot triggeredRestart
       unboundCancel waitError retired dropped nextPid] in *.
  destruct l; destruct e as [| [] | | | | [] |]; unfold_state;
    try discriminate Hrun.
  all: step_cases.
  all: try discriminate.
  all: cbn; try exact I.
  all: rewrite ?app_nil_r; try (eexists; reflexivity).
  all: try (do 2 eexists; split; [eassumption|]; auto; fail).
  all: try (rewrite <- app_assoc; eexists; reflexivity).
  all: rewrite <- ?app_assoc; cbn [app].
  all: repeat match goal with H : owner _ = _ |- _ => rewrite H end.
  all: eexists _, _; split; [reflexivity|].
  all: first [left; reflexivity | right; eexists; reflexivity].
Qed.

(** X2.  Whenever [Run] is about to call [l.conf.Start], the trace ends
    with the three setup calls of this cycle, in order and all successful,
    followed by nothing or by the teardown of the instance a Restart left
    running. *)
Theorem launch_follows_setup st evs s tr :
  execute (initial st) evs = Some (s, tr) ->
  at_pc s = AtConfStart ->
  exists before td,
    tr = before ++ [DownloadRootHints; DownloadRootKey; MakeUnboundConf] ++ td /\
    (td = [] \/
     exists p, td = [Cancel (Some p); RecvWaitError p; CloseWaitError p]).
Proof.
  intros Hex Hat.
  pose proof (execute_trace_invariant
                (fun s tr => invariant s /\ setupDone s tr) Run_setupDone
                evs (initial st) [] s tr
                (conj (invariant_initial st) I) Hex) as [_ HP].
  cbn [app] in HP. unfold setupDone in HP. now rewrite Hat in HP.
Qed.

(** X3.  When [Run] has returned, the context was cancelled and no
    resolver instance is left running, on every path: every handle that
    the trace shows passed to [l.conf.Start] has had its cancel function
    called since, and replaying the trace leaves no handle live. *)
Theorem returned_nothing_running st evs s tr :
  execute (initial st) evs = Some (s, tr) ->
  at_pc s = Returned ->
  ctxErr s = true /\ liveCount s = 0 /\
  (exists g, audit tr noLedger = Some g /\ live g = []) /\
  (forall h, In (ConfStart h) tr -> In (Cancel (Some h)) tr).
Proof.
  intros Hex Hat.
  destruct (reachable_invariant _ _ _ _ Hex) as (Hret & _ & Hpc).
  rewrite Hat in Hpc. destruct Hpc as [Hidle Hcx]. split; [exact Hcx|].
  assert (Hnone : filter isLive (processes s) = []).
  { unfold processes. rewrite filter_app, (filter_none _ _ Hret), app_nil_r.
    unfold procIdle in Hidle.
    destruct (unboundCancel s) as [p|]; cbn in *; [|reflexivity].
    destruct (isLive p); [discriminate | reflexivity]. }
  split; [unfold liveCount; now rewrite Hnone|].
  pose proof (execute_audit _ _ _ _ Hex) as Ha.
  assert (Hlive : live (ledgerOf s) = [])
    by (unfold ledgerOf; cbn; now rewrite Hnone).
  split; [exists (ledgerOf s); now split|].
  intros h Hh.
  destruct (audit_cancelled _ _ _ h Ha (or_intror Hh)) as [H|H]; [|exact H].
  rewrite Hlive in H. destruct H.
Qed.

(** X4.  A Stop followed by a Start, received while Active and not
    cancelled: the instance is cancelled and drained once, the loop parks
    disabled, and the Start enables it again and sends it to the first
    setup call, with nothing running in between. *)
Theorem Stop_then_Start st evs s tr :
  execute (initial st) evs = Some (s, tr) ->
  at_pc s = AtActiveSelect -> ctxErr s = false ->
  exists p s1 s2,
    execute s [Receive Stop; Tau] =
      Some (s1, [Info "stopping"; Cancel (Some p); RecvWaitError p; CloseWaitError p]) /\
    at_pc s1 = AtSubsequentStartSelect /\ isEnabled s1 = false /\ inactive s1 = true /\
    Run s1 (Receive Start) = Some (s2, []) /\
    at_pc s2 = AtDownloadRootHints /\ isEnabled s2 = true /\ inactive s2 = true /\
    settings_snapshot s2 = l_settings s2.
Proof.
  intros Hex Hat Hcx.
  destruct (reachable_invariant _ _ _ _ Hex) as (Hret & Hdrp & Hpc).
  rewrite Hat in Hpc. destruct Hpc as (_ & _ & p & c & Hp & Hl & Hc & Ho & Hr & Hcl).
  destruct s as [l st1 cx snap trig uc we ret drp np]; cbn in *; subst.
  exists (pid p). eexists. eexists.
  split.
  { unfold Run, cancelAndDrain. cbn. rewrite Hcl, Hr. cbn. rewrite Ho. reflexivity. }
  unfold inactive, processes, channels, isLive, isDrainedOnce in *. cbn.
  rewrite Hret, Hdrp, andb_false_r. cbn. repeat split.
  all: cbn; rewrite ?Hret, ?Hdrp, ?andb_false_r; reflexivity.
Qed.

(** X5.  A Restart received while Active (not cancelled) leaves the
    instance running during the setup of the next cycle; if that setup
    fails at its first call the instance is still the one live instance
    during the backoff, no DNS switch is made, and the restart stays
    pending. *)
Theorem Restart_keeps_instance_until_setup_done st evs s tr err :
  execute (initial st) evs = Some (s, tr) ->
  at_pc s = AtActiveSelect -> ctxErr s = false ->
  exists s',
    execute s [Receive Restart; Tau; Returns (Some err)] =
      Some (s', [Info "restarting"; DownloadRootHints] ++ logAndWait_enter err) /\
    at_pc s' = AtLogAndWaitSelect /\ triggeredRestart s' = true /\
    liveCount s' = 1 /\ unboundCancel s' = unboundCancel s /\
    waitError s' = waitError s.
Proof.
  intros Hex Hat Hcx.
  destruct (reachable_invariant _ _ _ _ Hex) as (Hret & Hdrp & Hpc).
  rewrite Hat in Hpc.
  destruct Hpc as (_ & [Hen|Hc'] & p & c & Hp & Hl & Hc & Ho & Hr & Hcl);
    [|congruence].
  destruct s as [l st1 cx snap trig uc we ret drp np]; cbn in *; subst.
  eexists. split.
  { unfold isEnabled in Hen. cbn in Hen.
    unfold Run, isEnabled. cbn. rewrite Hen. cbn. reflexivity. }
  unfold liveCount, processes. cbn. rewrite Hl, (filter_none _ _ Hret).
  repeat split.
Qed.


Lemma useUnencryptedDNS_no_signal fallback st r :
  ~ In SignalDNSReady (useUnencryptedDNS fallback st r).
Proof.
  unfold useUnencryptedDNS, logIfError.
  destruct (PlaintextAddress st); [|destruct (firstProviderIPv4 (Providers st))];
    destruct r; cbn; intuition discriminate.
Qed.

(** X21.  [Run] calls [signalDNSReady] in two situations only: in the
    step that enters the Active select after the readiness wait
    succeeded, and when a Restart is received in [waitForFirstStart] while
    disabled.  No other step calls it; in particular no failure path and
    no step of [waitForSubsequentStart] does. *)
Theorem signalDNSReady_only_when s e s' tr :
  Run s e = Some (s', tr) ->
  In SignalDNSReady tr ->
  (at_pc s = AtWaitForUnbound /\ e = Returns None /\ at_pc s' = AtActiveSelect) \/
  (at_pc s = AtFirstStartSelect /\ e = Receive Restart /\ isEnabled s = false /\ s' = s).
Proof.
  intros Hrun Hin.
  destruct s as [l st cx snap trig uc we ret drp np].
  unfold Run, waitForFirstStart, waitForSubsequentStart, logAndWait in Hrun.
  cbn [at_pc l_settings ctxErr settings_snapshot triggeredRestart
       unboundCancel waitError retired dropped nextPid] in *.
  destruct l; destruct e as [| [] | | | | [] |]; unfold_state;
    try discriminate Hrun.
  all: step_cases.
  all: try discriminate.
  all: try (right; repeat split; assumption).
  all: try (left; repeat split).
  all: exfalso.
  all: repeat (apply in_app_or in Hin; destruct Hin as [Hin|Hin]).
  all: try (apply useUnencryptedDNS_no_signal in Hin; exact Hin).
  all: try (apply in_map_iff in Hin; destruct Hin as (? & Hin & _); discriminate Hin).
  all: cbn in Hin; repeat (destruct Hin as [Hin|Hin]; try discriminate Hin); try exact Hin.
  all: try (apply in_app_or in Hin; destruct Hin as [Hin|Hin]).
  all: try (apply in_map_iff in Hin; destruct Hin as (? & Hin & _); discriminate Hin).
  all: try (apply useUnencryptedDNS_no_signal in Hin; exact Hin).
  all: cbn in Hin; repeat (destruct Hin as [Hin|Hin]; try discriminate Hin); try exact Hin.
Qed.

(** X22.  Start is idempotent while Active: any number of Start commands
    received in the Active select leave the whole state as it is (no new
    instance, same handle and exit channel) and only log. *)
Theorem Start_while_Active_idempotent s n :
  at_pc s = AtActiveSelect ->
  execute s (repeat (Receive Start) n) = Some (s, repeat (Info "already started") n).
Proof.
  intros Hat. induction n as [|n IH]; cbn [repeat execute]; [reflexivity|].
  assert (Hrun : Run s (Receive Start) = Some (s, [Info "already started"])).
  { destruct s as [l st cx snap trig uc we ret drp np]. cbn in Hat. subst l.
    reflexivity. }
  now rewrite Hrun, IH.
Qed.

(** How many steps [Run] can still take from a program point once the
    context is cancelled, commands apart. *)
Definition stepsToReturn (l : pc) : nat :=
  match l with
  | Returned | Blocked | Panicked => 0
  | AtLoopHead | AtFirstStartReturned => 1
  | AtLogAndWaitSelect | AtFirstStartSelect => 2
  | AtFallback _ | AtInitialDNS => 3
  | AtActiveSelect => 4
  | AtWaitForUnbound => 5
  | AtUseDNSSystemWide => 6
  | AtConfStart => 7
  | AtMakeUnboundConf => 8
  | AtDownloadRootKey => 9
  | AtDownloadRootHints => 10
  | AtSubsequentStartSelect => 11
  end.

(** Events by which the loop moves on its own: no command, and not the
    cancellation itself. *)
Definition isProgress (e : event) : bool :=
  match e with
  | Receive _ | CtxCancel => false
  | _ => true
  end.

Lemma cancelled_step_decreases s e s' tr :
  ctxErr s = true -> isProgress e = true -> Run s e = Some (s', tr) ->
  ctxErr s' = true /\ stepsToReturn (at_pc s') < stepsToReturn (at_pc s).
Proof.
  intros Hcx Hp Hrun.
  destruct s as [l st cx snap trig uc we ret drp np].
  unfold Run, waitForFirstStart, waitForSubsequentStart, logAndWait in Hrun.
  cbn [at_pc l_settings ctxErr settings_snapshot triggeredRestart
       unboundCancel waitError retired dropped nextPid] in *.
  subst cx.
  destruct l; destruct e as [| [] | | | | [] |]; unfold_state;
    try discriminate Hrun; try discriminate Hp.
  all: step_cases.
  all: try discriminate.
  all: cbn; split; [reflexivity | lia].
Qed.

Lemma cancelled_execute_bounded evs : forall s s' tr,
  ctxErr s = true -> forallb isProgress evs = true ->
  execute s evs = Some (s', tr) ->
  ctxErr s' = true /\
  length evs + stepsToReturn (at_pc s') <= stepsToReturn (at_pc s).
Proof.
  induction evs as [|e evs IH]; intros s s' tr Hcx Hp Hex; cbn in Hex.
  - injection Hex as <- _. cbn. split; [assumption | lia].
  - cbn in Hp. apply andb_true_iff in Hp as [He Hp].
    destruct (Run s e) as [[s1 tr1]|] eqn:Hrun; [|discriminate].
    destruct (execute s1 evs) as [[s2 tr2]|] eqn:Hrest; [|discriminate].
    injection Hex as <- _.
    destruct (cancelled_step_decreases _ _ _ _ Hcx He Hrun) as [Hcx1 Hlt].
    destruct (IH _ _ _ Hcx1 Hp Hrest) as [Hcx2 Hle].
    split; [assumption|]. cbn [length]. lia.
Qed.

(** X23.  Shutdown is bounded: once the context is cancelled, [Run] takes
    at most eleven further steps before it returns, unless it receives
    another command; from the loop head, the backoff wait and the Active
    select at most one, two and four.  And as long as it has not
    returned, a step that is no command can be taken. *)
Theorem cancelled_Run_returns_within st evs s tr later s' tr' :
  execute (initial st) evs = Some (s, tr) ->
  ctxErr s = true ->
  forallb isProgress later = true ->
  execute s later = Some (s', tr') ->
  length later + stepsToReturn (at_pc s') <= stepsToReturn (at_pc s) /\
  length later <= 11 /\
  (at_pc s' <> Returned ->
   exists e s'' tr'', isProgress e = true /\ Run s' e = Some (s'', tr'')).
Proof.
  intros Hex Hcx Hp Hlater.
  destruct (cancelled_execute_bounded _ _ _ _ Hcx Hp Hlater) as [Hcx' Hle].
  split; [exact Hle|]. split.
  { assert (stepsToReturn (at_pc s) <= 11) by (destruct (at_pc s); cbn; lia). lia. }
  intros Hnot.
  assert (Hinv : invariant s').
  { eapply execute_invariant; [|exact Hlater]. eapply reachable_invariant. exact Hex. }
  destruct s' as [l st1 cx snap trig uc we ret drp np].
  destruct Hinv as (_ & _ & Hpc). cbn in Hcx', Hnot, Hpc. subst cx.
  destruct l; try contradiction; try (now contradiction Hnot).
  all: try (exists (Returns None); eexists; eexists; split; [reflexivity|];
            cbn; reflexivity).
  all: try (exists CtxDone; eexists; eexists; split; [reflexivity|];
            cbn; reflexivity).
  all: try (exists Tau; eexists; eexists; split; [reflexivity|];
            cbn; reflexivity).
  - exists (Returns (Some EmptyString)). eexists. eexists. split; [reflexivity|].
    cbn. reflexivity.
  - exists CtxDone. unfold Run. cbn.
    destruct (cancelAndDrain _) as [o tr0]. eexists. eexists.
    split; reflexivity.
Qed.

End Looper.

(** *** Concrete executions *)

Definition cloudflare6 : net.IP :=
  [x26; x06; x47; x00; x47; x00; x00; x00; x00; x00; x00; x00; x00; x00; x11; x11].
Definition cloudflare4 : net.IP := [x01; x01; x01; x01].
Definition google6 : net.IP :=
  [x20; x01; x48; x60; x48; x60; x00; x00; x00; x00; x00; x00; x00; x00; x88; x88].

(** A provider table with a provider that has no IPv4 address. *)
Definition exampleMapping (provider : string) : option DNSProviderData :=
  if String.eqb provider "cloudflare"
  then Some {| IPs := [cloudflare6; cloudflare4] |}
  else if String.eqb provider "google6"
       then Some {| IPs := [google6] |}
       else None.

Definition exampleSettings : DNS :=
  {| Enabled := true; Providers := ["google6"; "cloudflare"];
     PlaintextAddress := None; KeepNameserver := false;
     UpdatePeriod := 0; VerbosityDetailsLevel := 1 |}.

(** Start, then three successful setup calls: [l.conf.Start] is next. *)
Definition untilConfStart : list event :=
  [Returns None; Receive Start; Tau; Tau; Returns None; Returns None; Returns None].

(** Launch, system-wide switch and readiness succeed: the Active select. *)
Definition untilActive : list event :=
  untilConfStart ++ [Returns None; Returns None; Returns None].

(** A Restart while Active, then the setup of the next cycle up to its
    last call. *)
Definition untilDeferredTeardown : list event :=
  untilActive ++ [Receive Restart; Tau; Returns None; Returns None].

Definition bindError : error := "listen udp 127.0.0.1:53: bind: address already in use".

(** Whether, in the trace of the handling of a failure, the error is
    logged before the first DNS switch of the fallback. *)
Fixpoint loggedBeforeFallback (tr : list action) : bool :=
  match tr with
  | [] => false
  | WarnErr _ :: _ => true
  | (UseDNSInternally _ | UseDNSSystemWide _ _) :: _ => false
  | _ :: rest => loggedBeforeFallback rest
  end.

(** The scenarios of the specification for the Fallback Selector:
    providers [A(no IPv4), B(IPv4 = X)] select X; provider [A(no IPv4)]
    alone selects nothing and only logs the error. *)
Example useUnencryptedDNS_second_provider :
  useUnencryptedDNS exampleMapping true exampleSettings None =
  [InfoIP "falling back on plaintext DNS at address %s" cloudflare4;
   UseDNSInternally cloudflare4; UseDNSSystemWide cloudflare4 false].
Proof. reflexivity. Qed.

Example useUnencryptedDNS_no_IPv4 :
  useUnencryptedDNS exampleMapping true
    {| Enabled := true; Providers := ["google6"]; PlaintextAddress := None;
       KeepNameserver := false; UpdatePeriod := 0; VerbosityDetailsLevel := 1 |} None =
  [ErrorProviders "no ipv4 DNS address found for providers %s" ["google6"]].
Proof. reflexivity. Qed.

(** An execution through a Restart and the deferred teardown, up to the
    second call of [l.conf.Start]. *)
Lemma Run_no_overlap_witness :
  exists s tr,
    execute exampleMapping (initial exampleSettings) untilDeferredTeardown = Some (s, tr) /\
    at_pc s = AtMakeUnboundConf /\ triggeredRestart s = true /\
    liveCount s <= 1 /\
    audit tr noLedger = Some {| live := [0]; waiting := [0] |} /\
    exists s',
      Run exampleMapping s (Returns None) =
        Some (s', [MakeUnboundConf; Cancel (Some 0); RecvWaitError 0; CloseWaitError 0]) /\
      at_pc s' = AtConfStart /\ inactive s' = true.
Proof.
  destruct (execute exampleMapping (initial exampleSettings) untilDeferredTeardown)
    as [[s tr]|] eqn:Hex; [|vm_compute in Hex; discriminate Hex].
  exists s, tr. split; [reflexivity|].
  destruct (Run_no_overlap exampleMapping _ _ _ _ Hex)
    as (Hlive & _ & Hteardown & Haudit & _).
  vm_compute in Hex. injection Hex as <- <-.
  split; [reflexivity|]. split; [reflexivity|].
  split; [exact Hlive|].
  split; [exact Haudit|].
  destruct (Hteardown eq_refl eq_refl) as (p & s' & Hp & Hrun & Hat & Hin).
  injection Hp as <-. exists s'. repeat split; assumption.
Defined.

(** A Stop while Active, the loop parks in [waitForSubsequentStart], and
    the context is cancelled while it waits there. *)
Lemma Stop_processed_witness :
  exists s tr,
    execute exampleMapping (initial exampleSettings)
      (untilActive ++ Receive Stop :: [Tau; CtxCancel]) = Some (s, tr) /\
    at_pc s = AtSubsequentStartSelect /\
    In (ConfStart 0) tr /\ In (GoWaitFn 0) tr /\
    isEnabled s = false /\
    inactive s = true /\
    audit tr noLedger = Some noLedger /\
    (forall h, In (ConfStart h) tr -> In (Cancel (Some h)) tr) /\
    (forall h, In (GoWaitFn h) tr -> In (RecvWaitError h) tr).
Proof.
  destruct (execute exampleMapping (initial exampleSettings)
              (untilActive ++ Receive Stop :: [Tau; CtxCancel]))
    as [[s tr]|] eqn:Hex; [|vm_compute in Hex; discriminate Hex].
  exists s, tr. split; [reflexivity|].
  destruct (Stop_processed exampleMapping _ _ _ _ _ Hex eq_refl) as [Hen Hrest].
  specialize (Hrest eq_refl).
  vm_compute in Hex. injection Hex as <- <-.
  split; [reflexivity|].
  split; [cbn; tauto|]. split; [cbn; tauto|].
  split; [exact Hen | exact Hrest].
Defined.

(** A launch failure after a successful setup. *)
Lemma failure_recovery_witness :
  exists s tr,
    execute exampleMapping (initial exampleSettings) untilConfStart = Some (s, tr) /\
    at_pc s = AtConfStart /\
    exists p s',
      execute exampleMapping s [Returns (Some bindError); Returns None] =
        Some (s', [ConfStart p; Cancel (Some p)]
                  ++ useUnencryptedDNS exampleMapping true (l_settings s) None
                  ++ logAndWait_enter bindError) /\
      at_pc s' = AtLogAndWaitSelect /\ liveCount s' = 0.
Proof.
  destruct (execute exampleMapping (initial exampleSettings) untilConfStart)
    as [[s tr]|] eqn:Hex; [|vm_compute in Hex; discriminate Hex].
  exists s, tr.
  destruct (failure_recovery exampleMapping _ _ _ _ Hex) as (_ & _ & Hfail & _).
  destruct (Hfail bindError None) as (Hlaunch & _).
  assert (Hat : at_pc s = AtConfStart)
    by (vm_compute in Hex; injection Hex as <- _; reflexivity).
  split; [reflexivity|]. split; [exact Hat|].
  exact (Hlaunch Hat).
Defined.

(** C8, the claim as stated fails: after a launch failure the fallback is
    engaged first and the error is logged afterwards. *)
Lemma launch_failure_falls_back_before_logging :
  exists s tr s' tr',
    execute exampleMapping (initial exampleSettings) untilConfStart = Some (s, tr) /\
    execute exampleMapping s [Returns (Some bindError); Returns None] = Some (s', tr') /\
    tr' = [ConfStart 0; Cancel (Some 0);
           InfoIP "falling back on plaintext DNS at address %s" cloudflare4;
           UseDNSInternally cloudflare4; UseDNSSystemWide cloudflare4 false;
           WarnErr bindError; Info "attempting restart in 10 seconds";
           NewTimer 10000000000] /\
    loggedBeforeFallback tr' = false.
Proof.
  eexists. eexists. eexists. eexists.
  split; [vm_compute; reflexivity|].
  split; [vm_compute; reflexivity|].
  split; reflexivity.
Qed.

(** C2.  A Restart received while disabled leaves the enabled flag and the
    whole state as they are and launches nothing, in both waits; but only
    [waitForFirstStart] calls [signalDNSReady]: [waitForSubsequentStart]
    logs and does not call it. *)
Theorem Restart_while_disabled (s : state) :
  waitForFirstStart (setEnabled false s) (Receive Restart) =
    Some (setEnabled false s, [SignalDNSReady; Info "not restarting because disabled"]) /\
  waitForSubsequentStart (setEnabled false s) (Receive Restart) =
    Some (setEnabled false s, [Info "not restarting because disabled"]).
Proof. split; reflexivity. Qed.

(** The disabled wait after a Stop is reached, and a Restart there
    produces no readiness signal. *)
Example Restart_after_Stop :
  exists s tr,
    execute exampleMapping (initial exampleSettings) (untilActive ++ [Receive Stop; Tau])
      = Some (s, tr) /\
    at_pc s = AtSubsequentStartSelect /\ isEnabled s = false /\
    Run exampleMapping s (Receive Restart) =
      Some (s, [Info "not restarting because disabled"]).
Proof.
  eexists. eexists. split; [vm_compute; reflexivity|]. repeat split.
Qed.

(** C7.  The context is cancelled while the loop is in the Active select
    and a Restart is pending as well; the select takes the Restart, the
    loop condition of line 169 ends the loop, line 258 cancels the
    instance, and [Run] returns without ever receiving from [waitError]:
    the goroutine of lines 218-221 stays blocked on its send. *)
Theorem cancellation_while_Active_undrained :
  exists s tr s' tr',
    execute exampleMapping (initial exampleSettings) untilActive = Some (s, tr) /\
    at_pc s = AtActiveSelect /\
    execute exampleMapping s [CtxCancel; Receive Restart; Tau] = Some (s', tr') /\
    at_pc s' = Returned /\
    tr' = [Info "restarting"; Cancel (Some 0); Warn "loop exited"; WgDone] /\
    waitError s' = Some {| owner := 0; received := 0; closed := false |} /\
    inactive s' = false.
Proof.
  eexists. eexists. eexists. eexists.
  split; [vm_compute; reflexivity|].
  repeat split.
Qed.

(** *** Executions for the further properties of [Run] *)

(** The Active select is reached after the switch to 127.0.0.1. *)
Lemma Active_points_at_loopback_witness :
  exists s tr,
    execute exampleMapping (initial exampleSettings) untilActive = Some (s, tr) /\
    at_pc s = AtActiveSelect /\
    exists before,
      dnsSwitches tr =
      before ++ [UseDNSInternally net.loopback;
                 UseDNSSystemWide net.loopback (KeepNameserver (settings_snapshot s))].
Proof.
  destruct (execute exampleMapping (initial exampleSettings) untilActive)
    as [[s tr]|] eqn:Hex; [|vm_compute in Hex; discriminate Hex].
  exists s, tr. split; [reflexivity|].
  assert (Hat : at_pc s = AtActiveSelect)
    by (vm_compute in Hex; injection Hex as <- _; reflexivity).
  split; [exact Hat|].
  exact (Active_points_at_loopback exampleMapping _ _ _ _ Hex Hat).
Defined.

(** The launch of the second cycle, after the deferred teardown. *)
Lemma launch_follows_setup_witness :
  exists s tr,
    execute exampleMapping (initial exampleSettings)
      (untilDeferredTeardown ++ [Returns None]) = Some (s, tr) /\
    at_pc s = AtConfStart /\
    exists before td,
      tr = before ++ [DownloadRootHints; DownloadRootKey; MakeUnboundConf] ++ td /\
      (td = [] \/
       exists p, td = [Cancel (Some p); RecvWaitError p; CloseWaitError p]).
Proof.
  destruct (execute exampleMapping (initial exampleSettings)
              (untilDeferredTeardown ++ [Returns None]))
    as [[s tr]|] eqn:Hex; [|vm_compute in Hex; discriminate Hex].
  exists s, tr. split; [reflexivity|].
  assert (Hat : at_pc s = AtConfStart)
    by (vm_compute in Hex; injection Hex as <- _; reflexivity).
  split; [exact Hat|].
  exact (launch_follows_setup exampleMapping _ _ _ _ Hex Hat).
Defined.

(** [Run] returns when cancelled while an instance runs. *)
Lemma returned_nothing_running_witness :
  exists s tr,
    execute exampleMapping (initial exampleSettings)
      (untilActive ++ [CtxCancel; CtxDone]) = Some (s, tr) /\
    at_pc s = Returned /\ In (ConfStart 0) tr /\
    ctxErr s = true /\ liveCount s = 0 /\
    (exists g, audit tr noLedger = Some g /\ live g = []) /\
    (forall h, In (ConfStart h) tr -> In (Cancel (Some h)) tr).
Proof.
  destruct (execute exampleMapping (initial exampleSettings)
              (untilActive ++ [CtxCancel; CtxDone]))
    as [[s tr]|] eqn:Hex; [|vm_compute in Hex; discriminate Hex].
  exists s, tr. split; [reflexivity|].
  assert (Hat : at_pc s = Returned)
    by (vm_compute in Hex; injection Hex as <- _; reflexivity).
  split; [exact Hat|].
  split; [vm_compute in Hex; injection Hex as _ <-; cbn; tauto|].
  exact (returned_nothing_running exampleMapping _ _ _ _ Hex Hat).
Defined.

(** Stop, then Start, from the first Active state. *)
Lemma Stop_then_Start_witness :
  exists s tr,
    execute exampleMapping (initial exampleSettings) untilActive = Some (s, tr) /\
    exists p s1 s2,
      execute exampleMapping s [Receive Stop; Tau] =
        Some (s1, [Info "stopping"; Cancel (Some p); RecvWaitError p; CloseWaitError p]) /\
      at_pc s1 = AtSubsequentStartSelect /\ isEnabled s1 = false /\ inactive s1 = true /\
      Run exampleMapping s1 (Receive Start) = Some (s2, []) /\
      at_pc s2 = AtDownloadRootHints /\ isEnabled s2 = true /\ inactive s2 = true /\
      settings_snapshot s2 = l_settings s2.
Proof.
  destruct (execute exampleMapping (initial exampleSettings) untilActive)
    as [[s tr]|] eqn:Hex; [|vm_compute in Hex; discriminate Hex].
  exists s, tr. split; [reflexivity|].
  assert (Hat : at_pc s = AtActiveSelect /\ ctxErr s = false)
    by (vm_compute in Hex; injection Hex as <- _; split; reflexivity).
  exact (Stop_then_Start exampleMapping _ _ _ _ Hex (proj1 Hat) (proj2 Hat)).
Defined.

(** Restart, then a failing root-hints download, from the first Active
    state. *)
Lemma Restart_keeps_instance_until_setup_done_witness :
  exists s tr s',
    execute exampleMapping (initial exampleSettings) untilActive = Some (s, tr) /\
    execute exampleMapping s [Receive Restart; Tau; Returns (Some bindError)] =
      Some (s', [Info "restarting"; DownloadRootHints] ++ logAndWait_enter bindError) /\
    at_pc s' = AtLogAndWaitSelect /\ triggeredRestart s' = true /\
    liveCount s' = 1 /\ unboundCancel s' = unboundCancel s /\
    waitError s' = waitError s.
Proof.
  destruct (execute exampleMapping (initial exampleSettings) untilActive)
    as [[s tr]|] eqn:Hex; [|vm_compute in Hex; discriminate Hex].
  exists s, tr.
  assert (Hat : at_pc s = AtActiveSelect /\ ctxErr s = false)
    by (vm_compute in Hex; injection Hex as <- _; split; reflexivity).
  destruct (Restart_keeps_instance_until_setup_done exampleMapping _ _ _ _ bindError
              Hex (proj1 Hat) (proj2 Hat)) as (s' & H).
  exists s'. split; [reflexivity | exact H].
Defined.

(** The step that enters the Active select signals readiness. *)
Lemma signalDNSReady_only_when_witness :
  exists s tr s' tr',
    execute exampleMapping (initial exampleSettings)
      (untilConfStart ++ [Returns None; Returns None]) = Some (s, tr) /\
    Run exampleMapping s (Returns None) = Some (s', tr') /\
    In SignalDNSReady tr' /\
    ((at_pc s = AtWaitForUnbound /\ Returns None = Returns None /\
      at_pc s' = AtActiveSelect) \/
     (at_pc s = AtFirstStartSelect /\ Returns None = Receive Restart /\
      isEnabled s = false /\ s' = s)).
Proof.
  destruct (execute exampleMapping (initial exampleSettings)
              (untilConfStart ++ [Returns None; Returns None]))
    as [[s tr]|] eqn:Hex; [|vm_compute in Hex; discriminate Hex].
  destruct (Run exampleMapping s (Returns None)) as [[s' tr']|] eqn:Hrun;
    [|vm_compute in Hex; injection Hex as <- _; vm_compute in Hrun;
      discriminate Hrun].
  exists s, tr, s', tr'. split; [reflexivity|]. split; [exact Hrun|].
  assert (Hin : In SignalDNSReady tr').
  { vm_compute in Hex. injection Hex as <- _.
    vm_compute in Hrun. injection Hrun as _ <-. cbn. tauto. }
  split; [exact Hin|].
  exact (signalDNSReady_only_when exampleMapping _ _ _ _ Hrun Hin).
Defined.

(** Three Start commands in the first Active state. *)
Lemma Start_while_Active_idempotent_witness :
  exists s tr,
    execute exampleMapping (initial exampleSettings) untilActive = Some (s, tr) /\
    execute exampleMapping s (repeat (Receive Start) 3) =
      Some (s, repeat (Info "already started") 3).
Proof.
  destruct (execute exampleMapping (initial exampleSettings) untilActive)
    as [[s tr]|] eqn:Hex; [|vm_compute in Hex; discriminate Hex].
  exists s, tr. split; [reflexivity|].
  apply (Start_while_Active_idempotent exampleMapping s 3).
  vm_compute in Hex. injection Hex as <- _. reflexivity.
Defined.

(** Cancellation in the first Active state, then the [ctx.Done] case. *)
Lemma cancelled_Run_returns_within_witness :
  exists s tr s' tr',
    execute exampleMapping (initial exampleSettings) (untilActive ++ [CtxCancel])
      = Some (s, tr) /\
    execute exampleMapping s [CtxDone] = Some (s', tr') /\
    at_pc s' = Returned /\
    length [CtxDone] + stepsToReturn (at_pc s') <= stepsToReturn (at_pc s).
Proof.
  destruct (execute exampleMapping (initial exampleSettings) (untilActive ++ [CtxCancel]))
    as [[s tr]|] eqn:Hex; [|vm_compute in Hex; discriminate Hex].
  destruct (execute exampleMapping s [CtxDone]) as [[s' tr']|] eqn:Hlater;
    [|vm_compute in Hex; injection Hex as <- _; vm_compute in Hlater;
      discriminate Hlater].
  exists s, tr, s', tr'. split; [reflexivity|]. split; [exact Hlater|].
  assert (Hcx : ctxErr s = true)
    by (vm_compute in Hex; injection Hex as <- _; reflexivity).
  split.
  - vm_compute in Hex. injection Hex as <- _.
    vm_compute in Hlater. injection Hlater as <- _. reflexivity.
  - exact (proj1 (cancelled_Run_returns_within exampleMapping _ _ _ _ [CtxDone] _ _
                    Hex Hcx eq_refl Hlater)).
Defined.

(** *** The settings store: [GetSettings], [SetSettings], [isEnabled],
        [setEnabled] under [settingsMutex] *)

(** [sync.RWMutex]: whether a writer holds it, and how many readers. *)
Record RWMutex := { writer : bool; readers : nat }.

(** The fields of [looper] the settings store touches.  [updateTickerSent]
    counts the sends on [l.updateTicker] that went through. *)
Record looper := {
  l_settingsField : DNS;
  settingsMutex : RWMutex;
  updateTickerSent : nat
}.

(** How a call ends: it returns, it waits for ever, or the Go run time
    stops the program with a fatal error. *)
Inductive result (A : Type) :=
| Done (a : A) (l : looper)
| Waits (l : looper)
| Fatal (msg : string) (l : looper).
Arguments Done {A} a l.
Arguments Waits {A} l.
Arguments Fatal {A} msg l.

Definition M (A : Type) := looper -> result A.

Definition ret {A} (a : A) : M A := fun l => Done a l.

Definition bind {A B} (m : M A) (k : A -> M B) : M B :=
  fun l =>
    match m l with
    | Done a l' => k a l'
    | Waits l' => Waits l'
    | Fatal msg l' => Fatal msg l'
    end.

Notation "x <- m ;; k" := (bind m (fun x => k))
  (at level 61, m at next level, right associativity).
Notation "m ;;; k" := (bind m (fun _ => k))
  (at level 61, right associativity).

(** [defer d]: [d] runs when the function body has returned. *)
Definition defer {A} (d : M unit) (body : M A) : M A :=
  a <- body ;; d ;;; ret a.

Definition withMutex (m : RWMutex) (l : looper) : looper :=
  {| l_settingsField := l_settingsField l; settingsMutex := m;
     updateTickerSent := updateTickerSent l |}.

(** [l.settingsMutex.Lock()] *)
Definition Lock : M unit := fun l =>
  let m := settingsMutex l in
  if writer m || negb (Nat.eqb (readers m) 0) then Waits l
  else Done tt (withMutex {| writer := true; readers := readers m |} l).

(** [l.settingsMutex.Unlock()]: unlocking a mutex that is not locked for
    writing is a fatal error of the run time. *)
Definition Unlock : M unit := fun l =>
  let m := settingsMutex l in
  if writer m
  then Done tt (withMutex {| writer := false; readers := readers m |} l)
  else Fatal "sync: Unlock of unlocked RWMutex" l.

(** [l.settingsMutex.RLock()] *)
Definition RLock : M unit := fun l =>
  let m := settingsMutex l in
  if writer m then Waits l
  else Done tt (withMutex {| writer := false; readers := S (readers m) |} l).

(** [l.settingsMutex.RUnlock()] *)
Definition RUnlock : M unit := fun l =>
  let m := settingsMutex l in
  match readers m with
  | O => Fatal "sync: RUnlock of unlocked RWMutex" l
  | S n => Done tt (withMutex {| writer := writer m; readers := n |} l)
  end.

Definition readSettings : M DNS := fun l => Done (l_settingsField l) l.

Definition writeSettings (st : DNS) : M unit := fun l =>
  Done tt {| l_settingsField := st; settingsMutex := settingsMutex l;
             updateTickerSent := updateTickerSent l |}.

(** [l.updateTicker <- struct{}{}], with [RunRestartTicker] receiving. *)
Definition sendUpdateTicker : M unit := fun l =>
  Done tt {| l_settingsField := l_settingsField l; settingsMutex := settingsMutex l;
             updateTickerSent := S (updateTickerSent l) |}.

(** [func (l *looper) GetSettings() (settings settings.DNS)], lines 65-69 *)
Definition GetSettings : M DNS :=
  RLock ;;;
  defer RUnlock readSettings.

(** [func (l *looper) SetSettings(settings settings.DNS)], lines 71-80 *)
Definition SetSettings (settings : DNS) : M unit :=
  Lock ;;;
  defer Unlock
    (old <- readSettings ;;
     let updatePeriodDiffers := negb (Z.eqb (UpdatePeriod old) (UpdatePeriod settings)) in
     writeSettings settings ;;;
     Unlock ;;;
     if updatePeriodDiffers then sendUpdateTicker else ret tt).

(** [func (l *looper) setEnabled(enabled bool)], lines 88-92, on the store *)
Definition storeSetEnabled (enabled : bool) : M unit :=
  Lock ;;;
  defer Unlock
    (old <- readSettings ;; writeSettings (withEnabled enabled old)).

Definition unlocked : RWMutex := {| writer := false; readers := 0 |}.

(** [setEnabled] and [GetSettings] release the mutex once and return. *)
Lemma storeSetEnabled_returns st n b :
  storeSetEnabled b {| l_settingsField := st; settingsMutex := unlocked;
                       updateTickerSent := n |} =
  Done tt {| l_settingsField := withEnabled b st; settingsMutex := unlocked;
             updateTickerSent := n |}.
Proof. reflexivity. Qed.

Lemma GetSettings_returns st n :
  GetSettings {| l_settingsField := st; settingsMutex := unlocked;
                 updateTickerSent := n |} =
  Done st {| l_settingsField := st; settingsMutex := unlocked;
             updateTickerSent := n |}.
Proof. reflexivity. Qed.

(** C4.  [SetSettings], called with the mutex free, stores the new
    settings and notifies the reschedule channel once exactly when the
    periods differ, but it calls [Unlock] twice (line 76 and the deferred
    call of line 73): the second call finds the mutex unlocked and the
    program stops with a fatal error instead of returning. *)
Theorem SetSettings_unlocks_twice (old new : DNS) (n : nat) :
  SetSettings new {| l_settingsField := old; settingsMutex := unlocked;
                     updateTickerSent := n |} =
  Fatal "sync: Unlock of unlocked RWMutex"
        {| l_settingsField := new; settingsMutex := unlocked;
           updateTickerSent :=
             if Z.eqb (UpdatePeriod old) (UpdatePeriod new) then n else S n |}.
Proof.
  unfold SetSettings, defer, bind, Lock, Unlock, readSettings, writeSettings,
    sendUpdateTicker, ret, withMutex. cbn.
  destruct (Z.eqb (UpdatePeriod old) (UpdatePeriod new)); reflexivity.
Qed.

(** *** The restart scheduler: [RunRestartTicker] *)

Definition wrap64 (z : Z) : Z := ((z + 2 ^ 63) mod 2 ^ 64 - 2 ^ 63)%Z.

(** [time.Timer].  [deadline]: the instant the timer fires at, while it is
    active; [buffered]: a tick sits in the channel [C]. *)
Record Timer := { deadline : option Z; buffered : bool }.

(** The run time fires an active timer whose deadline has passed: the
    timer becomes inactive and a tick is put into [C]. *)
Definition fire (now : Z) (t : Timer) : Timer :=
  match deadline t with
  | Some d => if (d <=? now)%Z then {| deadline := None; buffered := true |} else t
  | None => t
  end.

(** [timer.Stop()]: true when the call stops the timer, false when the
    timer has already expired or been stopped. *)
Definition Timer_Stop (t : Timer) : bool * Timer :=
  (match deadline t with Some _ => true | None => false end,
   {| deadline := None; buffered := buffered t |}).

(** [timer.Reset(d)] at instant [now]; a duration that is not positive
    makes the timer fire at once. *)
Definition Timer_Reset (now d : Z) (t : Timer) : Timer :=
  {| deadline := Some (now + Z.max d 0)%Z; buffered := buffered t |}.

(** [<-timer.C]: takes the buffered tick; waits for an active timer; with
    neither, no tick will ever come. *)
Definition Timer_recv (t : Timer) : outcome Timer :=
  if buffered t then Ok {| deadline := deadline t; buffered := false |}
  else match deadline t with
       | Some _ => Ok {| deadline := None; buffered := false |}
       | None => Blocks
       end.

(** The local variables of [RunRestartTicker], and the number of Restart
    commands it has pushed on [l.restart]. *)
Record ticker := {
  timer : Timer;
  timerIsStopped : bool;
  lastTick : Z;
  restartsSent : nat
}.

Inductive tickerEvent :=
| TickerCtxDone     (* <-ctx.Done() *)
| TimerTick         (* <-timer.C *)
| UpdateTicker.     (* <-l.updateTicker *)

Inductive tickerState :=
| Looping (t : ticker)
| TickerReturned (t : ticker)
| TickerBlocked (t : ticker).

(** Lines 301-309, at instant [now], with [period] the [UpdatePeriod] that
    [l.GetSettings()] returns. *)
Definition RunRestartTicker_start (now period : Z) : ticker :=
  let stopped := {| deadline := None; buffered := false |} in
  if (0 <? period)%Z
  then {| timer := Timer_Reset now period stopped; timerIsStopped := false;
          lastTick := 0; restartsSent := 0 |}
  else {| timer := stopped; timerIsStopped := true;
          lastTick := 0; restartsSent := 0 |}.

(** [l.timeSince(lastTick)] at instant [now]. *)
Definition timeSince (now t : Z) : Z := (now - t)%Z.

(** One round of the loop of [RunRestartTicker] (lines 310-340): the
    select takes the case of [e] at instant [now]; [period] is the
    [UpdatePeriod] that [l.GetSettings()] returns in that case.
    [None]: the case cannot be taken. *)
Definition RunRestartTicker (now period : Z) (t : ticker) (e : tickerEvent)
  : option tickerState :=
  let tm := fire now (timer t) in
  match e with
  | TickerCtxDone =>
      if negb (timerIsStopped t)
      then let (active, tm1) := Timer_Stop tm in
           if negb active
           then match Timer_recv tm1 with
                | Ok tm2 =>
                    Some (TickerReturned
                            {| timer := tm2; timerIsStopped := timerIsStopped t;
                               lastTick := lastTick t; restartsSent := restartsSent t |})
                | _ => Some (TickerBlocked t)
                end
           else Some (TickerReturned
                        {| timer := tm1; timerIsStopped := timerIsStopped t;
                           lastTick := lastTick t; restartsSent := restartsSent t |})
      else Some (TickerReturned t)
  | TimerTick =>
      if buffered tm
      then Some (Looping
                   {| timer := Timer_Reset now period
                                 {| deadline := deadline tm; buffered := false |};
                      timerIsStopped := timerIsStopped t;
                      lastTick := now;
                      restartsSent := S (restartsSent t) |})
      else None
  | UpdateTicker =>
      let (active, tm1) := Timer_Stop tm in
      match (if negb active then Timer_recv tm1 else Ok tm1) with
      | Ok tm2 =>
          let newUpdatePeriod := period in
          if (newUpdatePeriod =? 0)%Z
          then Some (Looping
                       {| timer := tm2; timerIsStopped := true;
                          lastTick := lastTick t; restartsSent := restartsSent t |})
          else
            let waited :=
              if negb (lastTick t =? 0)%Z then timeSince now (lastTick t) else 0%Z in
            let leftToWait := wrap64 (newUpdatePeriod - waited) in
            Some (Looping
                    {| timer := Timer_Reset now leftToWait tm2; timerIsStopped := false;
                       lastTick := lastTick t; restartsSent := restartsSent t |})
      | _ => Some (TickerBlocked t)
      end
  end.

(** With a timer that is armed and has not fired, the reschedule does what
    the specification says: stays disarmed for a zero period, else the
    next tick is at [now + max (newPeriod - elapsed) 0]. *)
Lemma reschedule_armed now d last n stopped newPeriod :
  (now < d)%Z ->
  RunRestartTicker now newPeriod
    {| timer := {| deadline := Some d; buffered := false |};
       timerIsStopped := stopped; lastTick := last; restartsSent := n |}
    UpdateTicker =
  Some (Looping
          (if (newPeriod =? 0)%Z
           then {| timer := {| deadline := None; buffered := false |};
                   timerIsStopped := true; lastTick := last; restartsSent := n |}
           else {| timer :=
                     {| deadline :=
                          Some (now + Z.max (wrap64 (newPeriod -
                                   (if (last =? 0)%Z then 0 else now - last))) 0)%Z;
                        buffered := false |};
                   timerIsStopped := false; lastTick := last; restartsSent := n |})).
Proof.
  intros Hlt. unfold RunRestartTicker, fire. cbn.
  destruct (Z.leb_spec d now) as [Hle|_]; [lia|]. cbn.
  destruct (newPeriod =? 0)%Z; [reflexivity|].
  unfold Timer_Reset, timeSince. cbn. destruct (last =? 0)%Z; reflexivity.
Qed.

(** C3.  The scheduler was started with a zero period, so its timer is
    disarmed and nothing is buffered; at the first settings-change
    notification, whatever the new period, [timer.Stop()] returns false and
    the scheduler receives from [timer.C], where no tick will ever arrive:
    it blocks for ever instead of rearming. *)
Theorem reschedule_blocks_when_disarmed (start now newPeriod : Z) :
  RunRestartTicker now newPeriod (RunRestartTicker_start start 0) UpdateTicker =
    Some (TickerBlocked (RunRestartTicker_start start 0)) /\
  forall stopped last n,
    let disarmed :=
      {| timer := {| deadline := None; buffered := false |};
         timerIsStopped := stopped; lastTick := last; restartsSent := n |} in
    RunRestartTicker now newPeriod disarmed UpdateTicker = Some (TickerBlocked disarmed).
Proof.
  split.
  - unfold RunRestartTicker_start. cbn. reflexivity.
  - intros stopped last n disarmed. subst disarmed.
    unfold RunRestartTicker, fire, Timer_Stop, Timer_recv. cbn. reflexivity.
Qed.

(** After a settings change to a zero period has been processed the timer
    is disarmed as well, and the next notification blocks the same way. *)
Lemma reschedule_blocks_after_zero_period start period now1 now2 newPeriod t :
  RunRestartTicker now1 0 (RunRestartTicker_start start period) UpdateTicker =
    Some (Looping t) ->
  RunRestartTicker now2 newPeriod t UpdateTicker = Some (TickerBlocked t).
Proof.
  unfold RunRestartTicker, RunRestartTicker_start.
  destruct (0 <? period)%Z; cbn; [|discriminate].
  unfold fire; cbn.
  destruct (start + Z.max period 0 <=? now1)%Z; cbn; intros H; injection H as <-; reflexivity.
Qed.

(** The timer is disarmed at startup when the period is zero, and no tick
    can then be taken. *)
Lemma zero_period_disarmed_at_start start now period :
  deadline (timer (RunRestartTicker_start start 0)) = None /\
  RunRestartTicker now period (RunRestartTicker_start start 0) TimerTick = None.
Proof. split; reflexivity. Qed.

(** C5.  The scheduler was started with a positive period; the period is
    then set to zero, and the expired timer is taken by the select before
    the notification is: the tick case pushes a Restart and calls
    [timer.Reset(0)], which arms the timer for the same instant; it fires
    again and a second Restart is pushed, all while the period is zero. *)
Theorem tick_with_zero_period_rearms (start : Z) (p : positive) :
  let now := (start + Z.pos p)%Z in
  exists t1 t2,
    RunRestartTicker now 0 (RunRestartTicker_start start (Z.pos p)) TimerTick =
      Some (Looping t1) /\
    deadline (timer t1) = Some now /\ restartsSent t1 = 1 /\
    RunRestartTicker now 0 t1 TimerTick = Some (Looping t2) /\
    deadline (timer t2) = Some now /\ restartsSent t2 = 2.
Proof.
  intros now. subst now.
  exists {| timer := {| deadline := Some (start + Z.pos p)%Z; buffered := false |};
            timerIsStopped := false; lastTick := (start + Z.pos p)%Z;
            restartsSent := 1 |}.
  exists {| timer := {| deadline := Some (start + Z.pos p)%Z; buffered := false |};
            timerIsStopped := false; lastTick := (start + Z.pos p)%Z;
            restartsSent := 2 |}.
  unfold RunRestartTicker, RunRestartTicker_start, fire, Timer_Reset. cbn.
  rewrite !Z.add_0_r, !Z.leb_refl. cbn.
  repeat split.
Qed.


(** *** Further properties of the settings store *)

(** [func (l *looper) isEnabled() bool], lines 82-86, on the store *)
Definition storeIsEnabled : M bool :=
  RLock ;;;
  defer RUnlock (st <- readSettings ;; ret (Enabled st)).

Definition heldBy (w : bool) (r : nat) : RWMutex := {| writer := w; readers := r |}.

(** X6.  With the mutex free, [setEnabled b] followed by [isEnabled] and
    [GetSettings] reads back [b] and the other settings unchanged; the
    mutex is free again after each call and nothing is sent on
    [updateTicker]. *)
Theorem setEnabled_read_back (st : DNS) (n : nat) (b : bool) :
  let l := {| l_settingsField := st; settingsMutex := unlocked; updateTickerSent := n |} in
  let l' := {| l_settingsField := withEnabled b st; settingsMutex := unlocked;
               updateTickerSent := n |} in
  (storeSetEnabled b ;;; storeIsEnabled) l = Done b l' /\
  (storeSetEnabled b ;;; GetSettings) l = Done (withEnabled b st) l' /\
  Providers (withEnabled b st) = Providers st /\
  PlaintextAddress (withEnabled b st) = PlaintextAddress st /\
  KeepNameserver (withEnabled b st) = KeepNameserver st /\
  UpdatePeriod (withEnabled b st) = UpdatePeriod st /\
  VerbosityDetailsLevel (withEnabled b st) = VerbosityDetailsLevel st.
Proof.
  intros l l'. subst l l'.
  unfold bind, storeSetEnabled, storeIsEnabled, GetSettings, defer, bind, Lock,
    Unlock, RLock, RUnlock, readSettings, writeSettings, ret, withMutex.
  cbn. repeat split.
Qed.

(** X7.  [GetSettings] and [isEnabled] only read: with no writer they
    return the stored value and leave the store as it was, whatever the
    number of other readers; while a writer holds the mutex they wait.
    [setEnabled] and [SetSettings] wait, and change nothing, while any
    reader or writer holds it. *)
Theorem store_lock_discipline (st new : DNS) (n r : nat) (b w : bool) :
  let l0 := {| l_settingsField := st; settingsMutex := heldBy false r;
               updateTickerSent := n |} in
  let lw := {| l_settingsField := st; settingsMutex := heldBy true r;
               updateTickerSent := n |} in
  let lr := {| l_settingsField := st; settingsMutex := heldBy w (S r);
               updateTickerSent := n |} in
  GetSettings l0 = Done st l0 /\
  storeIsEnabled l0 = Done (Enabled st) l0 /\
  GetSettings lw = Waits lw /\
  storeIsEnabled lw = Waits lw /\
  storeSetEnabled b lw = Waits lw /\
  SetSettings new lw = Waits lw /\
  storeSetEnabled b lr = Waits lr /\
  SetSettings new lr = Waits lr.
Proof.
  intros l0 lw lr. subst l0 lw lr.
  unfold storeSetEnabled, storeIsEnabled, GetSettings, SetSettings, defer, bind,
    Lock, Unlock, RLock, RUnlock, readSettings, writeSettings, ret, withMutex, heldBy.
  cbn. rewrite orb_true_r. repeat split.
Qed.

(** *** Further properties of the restart scheduler *)

(** Rounds of the loop of [RunRestartTicker]: for each, the instant, the
    [UpdatePeriod] stored at that instant and the case the select takes.
    Nothing follows a return or a block. *)
Fixpoint tickerRounds (t : ticker) (rounds : list (Z * Z * tickerEvent))
  : option tickerState :=
  match rounds with
  | [] => Some (Looping t)
  | (now, period, e) :: rest =>
      match RunRestartTicker now period t e with
      | Some (Looping t') => tickerRounds t' rest
      | Some final => match rest with [] => Some final | _ :: _ => None end
      | None => None
      end
  end.

Definition idleTimer : Timer := {| deadline := None; buffered := false |}.

(** [timerIsStopped] tells the truth: when it is set the timer is stopped
    and its channel empty; otherwise the timer is either armed or has
    fired with its tick waiting in the channel. *)
Definition tickerInvariant (t : ticker) : Prop :=
  if timerIsStopped t then timer t = idleTimer
  else (exists d, timer t = {| deadline := Some d; buffered := false |}) \/
       timer t = {| deadline := None; buffered := true |}.

Definition isTick (round : Z * Z * tickerEvent) : bool :=
  match round with
  | (_, _, TimerTick) => true
  | _ => false
  end.

Lemma tickerInvariant_start start period :
  tickerInvariant (RunRestartTicker_start start period).
Proof.
  unfold tickerInvariant, RunRestartTicker_start.
  destruct (0 <? period)%Z; cbn; [left; eexists; reflexivity | reflexivity].
Qed.

Lemma tickerInvariant_round now period t e t' :
  tickerInvariant t ->
  RunRestartTicker now period t e = Some (Looping t') ->
  tickerInvariant t' /\
  restartsSent t' = (if isTick (now, period, e) then S (restartsSent t) else restartsSent t).
Proof.
  destruct t as [[dl bf] stopped last n].
  unfold tickerInvariant, RunRestartTicker, fire, Timer_Stop, Timer_recv,
    Timer_Reset, idleTimer. cbn.
  intros Hinv Hrun.
  destruct stopped; cbn in *.
  - injection Hinv as -> ->. destruct e; cbn in Hrun; discriminate.
  - destruct Hinv as [[d Hd]|Hb]; [injection Hd as -> -> | injection Hb as -> ->];
      cbn in Hrun.
    + destruct (d <=? now)%Z; cbn in Hrun;
        destruct e; cbn in Hrun; try discriminate;
        try destruct (period =? 0)%Z; cbn in Hrun;
        injection Hrun as <-; cbn; split; eauto.
    + destruct e; cbn in Hrun; try discriminate;
        try destruct (period =? 0)%Z; cbn in Hrun;
        injection Hrun as <-; cbn; split; eauto.
Qed.

Lemma tickerRounds_invariant rounds : forall t t',
  tickerInvariant t ->
  tickerRounds t rounds = Some (Looping t') ->
  tickerInvariant t' /\
  restartsSent t' = restartsSent t + length (filter isTick rounds).
Proof.
  induction rounds as [|[[now period] e] rounds IH]; intros t t' Hinv Hrun;
    cbn [tickerRounds] in Hrun.
  - injection Hrun as <-. cbn. split; [assumption | lia].
  - destruct (RunRestartTicker now period t e) as [[t1|t1|t1]|] eqn:Hstep;
      try discriminate; try (destruct rounds; discriminate).
    destruct (tickerInvariant_round _ _ _ _ _ Hinv Hstep) as [Hinv1 Hn1].
    destruct (IH _ _ Hinv1 Hrun) as [Hinv' Hn'].
    split; [assumption|]. rewrite Hn', Hn1. cbn [filter].
    destruct (isTick (now, period, e)); cbn [length]; lia.
Qed.

(** X9.  The scheduler pushes one Restart per tick it takes and none
    otherwise: after any rounds that left it looping, the number of
    Restart commands pushed is the number of tick rounds. *)
Theorem ticker_one_restart_per_tick start period0 rounds t :
  tickerRounds (RunRestartTicker_start start period0) rounds = Some (Looping t) ->
  restartsSent t = length (filter isTick rounds).
Proof.
  intros Hrun.
  destruct (tickerRounds_invariant _ _ _ (tickerInvariant_start start period0) Hrun)
    as [_ Hn].
  rewrite Hn. unfold RunRestartTicker_start. now destruct (0 <? period0)%Z.
Qed.

(** The tick case of lines 317-321 with its instants apart.  The tick is
    taken and [lastTick] set at [now] (lines 317-318).  The send on the
    unbuffered [l.restart] (line 319) then waits until [Run] receives.
    [send = None]: [Run] never receives any more (it has returned), and
    the scheduler stays blocked at line 319, whatever the context does.
    [send = Some (accepted, period)]: the Restart is received at instant
    [accepted]; after that [l.GetSettings()] returns [period] and the timer
    is reset (lines 320-321).  [None] as result: the case cannot be
    taken. *)
Definition RunRestartTicker_tick (now : Z) (send : option (Z * Z)) (t : ticker)
  : option tickerState :=
  let tm := fire now (timer t) in
  if buffered tm
  then
    let taken :=
      {| timer := {| deadline := deadline tm; buffered := false |};
         timerIsStopped := timerIsStopped t;
         lastTick := now;
         restartsSent := restartsSent t |} in
    match send with
    | None => Some (TickerBlocked taken)
    | Some (accepted, period) =>
        Some (Looping
                {| timer := Timer_Reset accepted period (timer taken);
                   timerIsStopped := timerIsStopped t;
                   lastTick := now;
                   restartsSent := S (restartsSent t) |})
    end
  else None.

(** The case [TimerTick] of [RunRestartTicker] is the tick whose Restart
    is received at once. *)
Lemma RunRestartTicker_tick_at_once now period t :
  RunRestartTicker now period t TimerTick =
  RunRestartTicker_tick now (Some (now, period)) t.
Proof. reflexivity. Qed.








Lemma wrap64_small z :
  (- 2 ^ 63 <= z < 2 ^ 63)%Z -> wrap64 z = z.
Proof.
  intros H. unfold wrap64. rewrite Z.mod_small; lia.
Qed.

(** X11.  Before the first tick the time already waited is not counted:
    the scheduler was started at [start] with a positive period, and a
    settings change to a new positive period (a 64-bit duration) is
    processed at [now], before the timer fires; the timer is rearmed for
    [now + newPeriod]. *)
Theorem reschedule_before_first_tick start period now newPeriod :
  (0 < period)%Z -> (now < start + period)%Z ->
  (0 < newPeriod < 2 ^ 63)%Z ->
  RunRestartTicker now newPeriod (RunRestartTicker_start start period) UpdateTicker =
  Some (Looping {| timer := {| deadline := Some (now + newPeriod)%Z; buffered := false |};
                   timerIsStopped := false; lastTick := 0; restartsSent := 0 |}).
Proof.
  intros Hp Hnow Hnew.
  unfold RunRestartTicker_start.
  destruct (Z.ltb_spec 0 period) as [_|]; [|lia].
  unfold RunRestartTicker, fire, Timer_Reset, Timer_Stop. cbn.
  rewrite Z.max_l by lia.
  destruct (Z.leb_spec (start + period) now) as [|_]; [lia|]. cbn.
  destruct (Z.eqb_spec newPeriod 0) as [|_]; [lia|].
  rewrite Z.sub_0_r, wrap64_small by lia.
  rewrite Z.max_l by lia. reflexivity.
Qed.

(** X12.  After a tick the time waited since it is counted: a tick was
    taken at [tick] (not the Unix epoch) with a positive period, and a
    settings change to a new non-zero period is processed at [now], before
    the timer fires again; the timer is rearmed for
    [now + max (newPeriod - (now - tick)) 0], so that a new period already
    used up fires at once. *)
Theorem reschedule_after_tick tick period t t1 now newPeriod :
  (0 < period)%Z -> tick <> 0%Z ->
  (tick <= now < tick + period)%Z ->
  newPeriod <> 0%Z ->
  (- 2 ^ 63 <= newPeriod - (now - tick) < 2 ^ 63)%Z ->
  RunRestartTicker tick period t TimerTick = Some (Looping t1) ->
  RunRestartTicker now newPeriod t1 UpdateTicker =
  Some (Looping {| timer := {| deadline :=
                                 Some (now + Z.max (newPeriod - (now - tick)) 0)%Z;
                               buffered := false |};
                   timerIsStopped := false; lastTick := tick;
                   restartsSent := S (restartsSent t) |}).
Proof.
  intros Hp Htick Hnow Hnew Hrange Hrun.
  unfold RunRestartTicker in Hrun.
  destruct (buffered (fire tick (timer t))); [|discriminate].
  injection Hrun as <-.
  unfold RunRestartTicker, fire, Timer_Reset, Timer_Stop, timeSince. cbn.
  rewrite Z.max_l by lia.
  destruct (Z.leb_spec (tick + period) now) as [|_]; [lia|]. cbn.
  destruct (Z.eqb_spec newPeriod 0) as [|_]; [contradiction|].
  destruct (Z.eqb_spec tick 0) as [|_]; [contradiction|]. cbn.
  now rewrite wrap64_small.
Qed.

(** X13.  A settings change processed when the timer has expired but its
    tick has not been taken consumes that tick without pushing a Restart;
    when the new period is zero the timer stays disarmed and the tick is
    lost. *)
Theorem reschedule_consumes_expired_tick d now newPeriod stopped last n t' :
  (d <= now)%Z ->
  RunRestartTicker now newPeriod
    {| timer := {| deadline := Some d; buffered := false |};
       timerIsStopped := stopped; lastTick := last; restartsSent := n |}
    UpdateTicker = Some t' ->
  exists t1,
    t' = Looping t1 /\ restartsSent t1 = n /\ buffered (timer t1) = false /\
    (newPeriod = 0%Z ->
     timer t1 = idleTimer /\
     forall later period', RunRestartTicker later period' t1 TimerTick = None).
Proof.
  intros Hd. unfold RunRestartTicker, fire, Timer_Stop, Timer_recv, Timer_Reset. cbn.
  destruct (Z.leb_spec d now) as [_|]; [|lia]. cbn.
  destruct (Z.eqb_spec newPeriod 0) as [->|Hne]; intros H; injection H as <-.
  - eexists. split; [reflexivity|]. split; [reflexivity|]. split; [reflexivity|].
    intros _. split; [reflexivity|]. intros later period'. reflexivity.
  - eexists. split; [reflexivity|]. split; [reflexivity|]. split; [reflexivity|].
    intros H. contradiction.
Qed.


(** Rounds of a scheduler started at instant 1000 with period 3600: a tick
    at 4600, then a change to period 600 processed at 4900. *)
Definition exampleRounds : list (Z * Z * tickerEvent) :=
  [(4600, 3600, TimerTick); (4900, 600, UpdateTicker)]%Z.

Definition exampleTicker : ticker :=
  {| timer := {| deadline := Some 5200%Z; buffered := false |};
     timerIsStopped := false; lastTick := 4600%Z; restartsSent := 1 |}.



(** One tick round among the example rounds. *)
Lemma ticker_one_restart_per_tick_witness :
  tickerRounds (RunRestartTicker_start 1000 3600) exampleRounds =
    Some (Looping exampleTicker) /\
  restartsSent exampleTicker = 1.
Proof.
  split; [reflexivity|].
  exact (ticker_one_restart_per_tick 1000 3600 exampleRounds exampleTicker eq_refl).
Defined.


(** A change from period 3600 to 600, 300 after the start. *)
Lemma reschedule_before_first_tick_witness :
  RunRestartTicker 1300 600 (RunRestartTicker_start 1000 3600) UpdateTicker =
  Some (Looping {| timer := {| deadline := Some (1300 + 600)%Z; buffered := false |};
                   timerIsStopped := false; lastTick := 0; restartsSent := 0 |}).
Proof.
  apply (reschedule_before_first_tick 1000 3600 1300 600); lia.
Defined.

(** A change from period 3600 to 600, 300 after the tick at 4600: the next
    tick is 300 after the change. *)
Lemma reschedule_after_tick_witness :
  exists t1,
    RunRestartTicker 4600 3600 (RunRestartTicker_start 1000 3600) TimerTick =
      Some (Looping t1) /\
    RunRestartTicker 4900 600 t1 UpdateTicker =
    Some (Looping {| timer := {| deadline := Some (4900 + Z.max (600 - (4900 - 4600)) 0)%Z;
                                 buffered := false |};
                     timerIsStopped := false; lastTick := 4600;
                     restartsSent := 1 |}).
Proof.
  eexists. split; [reflexivity|].
  apply (reschedule_after_tick 4600 3600 (RunRestartTicker_start 1000 3600) _ 4900 600);
    try lia; reflexivity.
Defined.

(** The timer expired at 4600; a change to period zero is processed at
    4700 before the tick is taken. *)
Lemma reschedule_consumes_expired_tick_witness :
  exists t1,
    RunRestartTicker 4700 0 (RunRestartTicker_start 1000 3600) UpdateTicker =
      Some (Looping t1) /\
    restartsSent t1 = 0 /\ buffered (timer t1) = false /\ timer t1 = idleTimer.
Proof.
  destruct (reschedule_consumes_expired_tick 4600 4700 0 false 0 0
              (Looping {| timer := idleTimer; timerIsStopped := true;
                          lastTick := 0; restartsSent := 0 |}))
    as (t1 & Ht & Hn & Hb & Hz); [lia | reflexivity |].
  exists t1. injection Ht as <-. repeat split.
Defined.


End dns.

(** ** Package [updater]: [findNordvpnServers] *)
Module updater.

(** An element of the JSON array of [https://nordvpn.com/api/server]
    (the anonymous struct of lines 45-53). *)
Record jsonServer := {
  IPAddress : string;
  Name : string;
  Country : string;
  UDP : bool;
  TCP : bool
}.

(** [models.NordvpnServer] *)
Record NordvpnServer := {
  Region : string;
  Number : Z;
  IP : net.IP;
  srvTCP : bool;
  srvUDP : bool
}.

(** The errors [findNordvpnServers] returns. *)
Inductive error :=
| ClientError (err : string)              (* the error of client.Get *)
| HTTPStatus (status : Z)                 (* "HTTP status code %d" *)
| UnmarshalError (err : string)           (* the error of json.Unmarshal *)
| NotIPv4 (ipAddress name : string)       (* "IP address %q is not a valid IPv4 address for server %q" *)
| NoID (name : string)                    (* "No ID in server name %q" *)
| BadID (name : string).                  (* "Bad ID in server name %q" *)

(** What [client.Get(ctx, url)] returned. *)
Record response := { body : list byte; status : Z; getErr : option string }.

Definition StatusOK : Z := 200.

(** [strings.IndexRune(s, r)] for a one-byte rune: the index of its first
    occurrence, -1 when there is none. *)
Fixpoint IndexRune (s : string) (r : ascii) : Z :=
  match s with
  | EmptyString => (-1)%Z
  | String c rest =>
      if Ascii.eqb c r then 0%Z
      else let i := IndexRune rest r in
           if (i <? 0)%Z then (-1)%Z else (i + 1)%Z
  end.

(** [s[n:]] *)
Fixpoint sliceFrom (n : nat) (s : string) : string :=
  match n, s with
  | O, _ => s
  | S n', String _ rest => sliceFrom n' rest
  | S _, EmptyString => EmptyString
  end.

(** [s[:n]] *)
Fixpoint sliceTo (n : nat) (s : string) : string :=
  match n, s with
  | O, _ => EmptyString
  | S n', String c rest => String c (sliceTo n' rest)
  | S _, EmptyString => EmptyString
  end.

Definition digitValue (c : ascii) : option N :=
  let n := N_of_ascii c in
  if (48 <=? n)%N && (n <=? 57)%N then Some (n - 48)%N else None.

Fixpoint parseDigits (s : string) (acc : N) : option N :=
  match s with
  | EmptyString => Some acc
  | String c rest =>
      match digitValue c with
      | Some d => parseDigits rest (acc * 10 + d)%N
      | None => None
      end
  end.

(** [strconv.ParseUint(s, 10, 16)]: [None] for a syntax or a range error. *)
Definition ParseUint_10_16 (s : string) : option Z :=
  match s with
  | EmptyString => None
  | _ =>
      match parseDigits s 0 with
      | Some n => if (n <=? 65535)%N then Some (Z.of_N n) else None
      | None => None
      end
  end.

(** The [less] function given to [sort.Slice] (lines 57-62); [<] on Go
    strings compares bytes lexicographically. *)
Definition less (a b : jsonServer) : bool :=
  if String.eqb (Country a) (Country b)
  then String.ltb (Name a) (Name b)
  else String.ltb (Country a) (Country b).

(** The servers the loop keeps: [TCP] or [UDP] for openvpn. *)
Definition supported (j : jsonServer) : bool := TCP j || UDP j.

Definition hash : ascii := "#"%char.

Section Find.

(** Library functions the sources do not contain: [net.ParseIP],
    [json.Unmarshal] into the slice [data], [sort.Slice] and the [%q] verb
    of [fmt.Sprintf]. *)
Variable ParseIP : string -> option net.IP.
Variable Unmarshal : list byte -> string + list jsonServer.
Variable sort_Slice :
  (jsonServer -> jsonServer -> bool) -> list jsonServer -> list jsonServer.
Variable quote : string -> string.

(** Line 66 *)
Definition warning (j : jsonServer) : string :=
  String.append "server "
    (String.append (quote (Name j)) " does not support TCP and UDP for openvpn").

(** Lines 69-90: one server of the list. *)
Definition parseServer (j : jsonServer) : error + NordvpnServer :=
  match ParseIP (IPAddress j) with
  | None => inl (NotIPv4 (IPAddress j) (Name j))
  | Some ip =>
      match net.To4 ip with
      | None => inl (NotIPv4 (IPAddress j) (Name j))
      | Some _ =>
          let i := IndexRune (Name j) hash in
          if (i <? 0)%Z then inl (NoID (Name j))
          else
            let idString := sliceFrom (Z.to_nat (i + 1)) (Name j) in
            match ParseUint_10_16 idString with
            | None => inl (BadID (Name j))
            | Some idUint64 =>
                inr {| Region := Country j; Number := idUint64; IP := ip;
                       srvTCP := TCP j; srvUDP := UDP j |}
            end
      end
  end.

(** The loop of lines 64-93 over the sorted [data], with the [servers] and
    [warnings] appended so far. *)
Fixpoint collect (data : list jsonServer) (servers : list NordvpnServer)
  (warnings : list string) : list NordvpnServer * list string * option error :=
  match data with
  | [] => (servers, warnings, None)
  | j :: rest =>
      if negb (TCP j) && negb (UDP j)
      then collect rest servers (warnings ++ [warning j])
      else match parseServer j with
           | inl err => ([], [], Some err)
           | inr server => collect rest (servers ++ [server]) warnings
           end
  end.

(** [func findNordvpnServers(ctx, client) (servers, warnings, err)],
    lines 35-94; [resp] is what [client.Get] returned. *)
Definition findNordvpnServers (resp : response)
  : list NordvpnServer * list string * option error :=
  match getErr resp with
  | Some err => ([], [], Some (ClientError err))
  | None =>
      if negb (status resp =? StatusOK)%Z
      then ([], [], Some (HTTPStatus (status resp)))
      else match Unmarshal (body resp) with
           | inl err => ([], [], Some (UnmarshalError err))
           | inr data => collect (sort_Slice less data) [] []
           end
  end.

(** The words of the claim. *)

(** By country and, within equal countries, by name. *)
Definition byCountryThenName (a b : jsonServer) : Prop :=
  String.compare (Country a) (Country b) = Lt \/
  (Country a = Country b /\ String.compare (Name a) (Name b) <> Gt).

(** An IP address that is valid IPv4. *)
Definition validIPv4 (s : string) : Prop :=
  exists ip, ParseIP s = Some ip /\ net.To4 ip <> None.

(** A name with a '#'-delimited suffix parseable as a 16-bit unsigned
    integer. *)
Definition hasID (name : string) : Prop :=
  exists prefix suffix id,
    name = String.append prefix (String hash suffix) /\
    ParseUint_10_16 suffix = Some id.

Definition badServer (j : jsonServer) : Prop :=
  supported j = true /\ (~ validIPv4 (IPAddress j) \/ ~ hasID (Name j)).

Lemma less_false_byCountryThenName a b :
  less b a = false -> byCountryThenName a b.
Proof.
  unfold less, byCountryThenName, String.ltb.
  destruct (String.eqb_spec (Country b) (Country a)) as [Heq|Hne].
  - intros H. right. split; [now symmetry|].
    rewrite String.compare_antisym.
    destruct (String.compare (Name b) (Name a)); cbn; congruence.
  - intros H. left. rewrite String.compare_antisym.
    destruct (String.compare (Country b) (Country a)) eqn:Hc; cbn; try congruence.
    apply String.compare_eq_iff in Hc. contradiction.
Qed.

Lemma StronglySorted_filter {A} (R : A -> A -> Prop) (f : A -> bool) l :
  StronglySorted R l -> StronglySorted R (filter f l).
Proof.
  induction 1 as [|a l Hs IH Hall]; cbn; [constructor|].
  destruct (f a); [|exact IH].
  constructor; [exact IH|].
  rewrite Forall_forall in *. intros x Hx. apply filter_In in Hx. now apply Hall.
Qed.

Lemma StronglySorted_weaken {A} (R R' : A -> A -> Prop) l :
  (forall a b, R a b -> R' a b) -> StronglySorted R l -> StronglySorted R' l.
Proof.
  intros Himp. induction 1 as [|a l Hs IH Hall]; constructor; [exact IH|].
  eapply Forall_impl; [|exact Hall]. apply Himp.
Qed.

Lemma Permutation_filter_same {A} (f : A -> bool) l l' :
  Permutation l l' -> Permutation (filter f l) (filter f l').
Proof.
  induction 1 as [|x l l' _ IH|x y l|l1 l2 l3 _ IH1 _ IH2]; cbn.
  - constructor.
  - destruct (f x); [now constructor | exact IH].
  - destruct (f x), (f y); try apply Permutation_refl. apply perm_swap.
  - eapply Permutation_trans; eassumption.
Qed.

Lemma IndexRune_split s c :
  (0 <= IndexRune s c)%Z ->
  s = String.append (sliceTo (Z.to_nat (IndexRune s c)) s)
        (String c (sliceFrom (Z.to_nat (IndexRune s c + 1)) s)).
Proof.
  induction s as [|a s IH]; cbn [IndexRune]; [lia|].
  destruct (Ascii.eqb_spec a c) as [->|Hne]; [reflexivity|].
  destruct (Z.ltb_spec (IndexRune s c) 0) as [Hneg|Hpos]; [lia|].
  intros _.
  replace (Z.to_nat (IndexRune s c + 1)) with (S (Z.to_nat (IndexRune s c))) by lia.
  replace (Z.to_nat (IndexRune s c + 1 + 1)) with (S (Z.to_nat (IndexRune s c + 1))) by lia.
  cbn. f_equal.
  replace (S (Z.to_nat (IndexRune s c))) with (Z.to_nat (IndexRune s c + 1)) by lia.
  now apply IH.
Qed.

(** A server the loop accepts is good in the words of the claim. *)
Lemma parseServer_inr j server :
  parseServer j = inr server ->
  validIPv4 (IPAddress j) /\ hasID (Name j) /\ Region server = Country j.
Proof.
  unfold parseServer, validIPv4, hasID.
  destruct (ParseIP (IPAddress j)) as [ip|] eqn:Hip; [|discriminate].
  destruct (net.To4 ip) as [ip4|] eqn:H4; [|discriminate].
  destruct (Z.ltb_spec (IndexRune (Name j) hash) 0) as [Hneg|Hpos]; [discriminate|].
  destruct (ParseUint_10_16 _) as [id|] eqn:Hid; [|discriminate].
  intros H. injection H as <-. split; [|split; [|reflexivity]].
  - exists ip. split; [reflexivity|]. congruence.
  - eexists _, _, id. split; [|exact Hid]. now apply IndexRune_split.
Qed.

Lemma badServer_rejected j :
  badServer j -> exists err, parseServer j = inl err.
Proof.
  intros [_ Hbad]. destruct (parseServer j) as [err|server] eqn:Hp; [now exists err|].
  apply parseServer_inr in Hp as (Hv & Hi & _). tauto.
Qed.

Lemma supported_negb j : negb (TCP j) && negb (UDP j) = negb (supported j).
Proof. unfold supported. now destruct (TCP j), (UDP j). Qed.

(** The loop either stops at the first rejected server, with nothing but
    the error, or appends one server per supported element and one
    warning per unsupported element, in the order of the list. *)
Lemma collect_result data : forall servers warnings,
  (exists err, collect data servers warnings = ([], [], Some err)) \/
  (exists new,
     collect data servers warnings =
       (servers ++ new,
        warnings ++ map warning (filter (fun j => negb (supported j)) data), None) /\
     Forall2 (fun j server => parseServer j = inr server) (filter supported data) new).
Proof.
  induction data as [|j data IH]; intros servers warnings; cbn [collect filter map].
  - right. exists []. rewrite !app_nil_r. split; [reflexivity | constructor].
  - rewrite supported_negb. destruct (supported j) eqn:Hs; cbn [negb].
    + destruct (parseServer j) as [err|server] eqn:Hp; [left; now exists err|].
      destruct (IH (servers ++ [server]) warnings) as [Herr|(new & Hc & Hall)];
        [now left|right].
      exists (server :: new). rewrite Hc, <- app_assoc. split; [reflexivity|].
      now constructor.
    + destruct (IH servers (warnings ++ [warning j])) as [Herr|(new & Hc & Hall)];
        [now left|right].
      exists new. rewrite Hc, <- app_assoc. split; [reflexivity | exact Hall].
Qed.

Lemma collect_rejects data : forall servers warnings,
  Exists (fun j => supported j = true /\ exists err, parseServer j = inl err) data ->
  exists err, collect data servers warnings = ([], [], Some err).
Proof.
  induction data as [|j data IH]; intros servers warnings Hex; [inversion Hex|].
  cbn [collect]. rewrite supported_negb.
  destruct (supported j) eqn:Hs; cbn [negb].
  - destruct (parseServer j) as [err|server] eqn:Hp; [now exists err|].
    apply IH. inversion Hex as [? ? (_ & err & Herr)|]; subst; [congruence|assumption].
  - apply IH. inversion Hex as [? ? (Hsup & _)|]; subst; [congruence|assumption].
Qed.

Lemma collect_no_error data servers warnings err :
  Forall (fun j => supported j = true -> exists server, parseServer j = inr server) data ->
  collect data servers warnings <> ([], [], Some err).
Proof.
  revert servers warnings.
  induction data as [|j data IH]; intros servers warnings Hall; cbn [collect].
  - discriminate.
  - inversion Hall as [|? ? Hj Hrest]; subst.
    rewrite supported_negb. destruct (supported j) eqn:Hs; cbn [negb].
    + destruct (Hj eq_refl) as (server & ->). now apply IH.
    + now apply IH.
Qed.

Lemma Forall2_Region kept servers :
  Forall2 (fun j server => parseServer j = inr server) kept servers ->
  map Region servers = map Country kept.
Proof.
  induction 1 as [|j server kept servers Hp _ IH]; cbn; [reflexivity|].
  apply parseServer_inr in Hp as (_ & _ & ->). now rewrite IH.
Qed.

(** C10.  The list was fetched (no client error, status 200) and parsed,
    and [sort.Slice] did its work on it (a permutation in which no element
    is [less] than an earlier one).  Then:
    the servers the loop keeps are exactly the servers of the list that
    support openvpn TCP or UDP, ordered by country and, within a country,
    by name;
    if one of them has an IP address that is not valid IPv4, or a name
    without a '#'-delimited suffix parseable as a 16-bit unsigned integer,
    the call returns an error, no server and no warning;
    in every case the call returns either that, or one server per kept
    element in that order (its region the element's country) and one
    warning per unsupported element, without error;
    and it returns no error when the loop accepts every kept server. *)
Theorem findNordvpnServers_sorted_supported (resp : response) (data : list jsonServer) :
  getErr resp = None ->
  status resp = StatusOK ->
  Unmarshal (body resp) = inr data ->
  Permutation data (sort_Slice less data) ->
  StronglySorted (fun a b => less b a = false) (sort_Slice less data) ->
  let kept := filter supported (sort_Slice less data) in
  let unsupported := filter (fun j => negb (supported j)) (sort_Slice less data) in
  Permutation (filter supported data) kept /\
  StronglySorted byCountryThenName kept /\
  length unsupported = length (filter (fun j => negb (supported j)) data) /\
  (Exists badServer data ->
   exists err, findNordvpnServers resp = ([], [], Some err)) /\
  ((exists err, findNordvpnServers resp = ([], [], Some err)) \/
   (exists servers,
      findNordvpnServers resp = (servers, map warning unsupported, None) /\
      Forall2 (fun j server => parseServer j = inr server) kept servers /\
      map Region servers = map Country kept)) /\
  (Forall (fun j => supported j = true -> exists server, parseServer j = inr server)
          data ->
   forall err, findNordvpnServers resp <> ([], [], Some err)).
Proof.
  intros Hget Hstatus Hjson Hperm Hsorted kept unsupported.
  assert (Hfind : findNordvpnServers resp = collect (sort_Slice less data) [] []).
  { unfold findNordvpnServers. now rewrite Hget, Hstatus, Hjson. }
  rewrite Hfind.
  split; [now apply Permutation_filter_same|].
  split.
  { apply StronglySorted_filter.
    eapply StronglySorted_weaken; [|exact Hsorted].
    intros a b. apply less_false_byCountryThenName. }
  split.
  { apply Permutation_length, Permutation_sym, Permutation_filter_same, Hperm. }
  split; [|split].
  - intros Hbad. apply collect_rejects.
    apply Exists_exists in Hbad as (j & Hin & Hj).
    apply Exists_exists. exists j. split.
    + eapply Permutation_in; eassumption.
    + split; [apply Hj | now apply badServer_rejected].
  - destruct (collect_result (sort_Slice less data) [] []) as [Herr|(new & Hc & Hall)];
      [now left|right].
    exists new. cbn [app] in Hc. split; [exact Hc|].
    split; [exact Hall | now apply Forall2_Region].
  - intros Hall err. apply collect_no_error.
    rewrite Forall_forall in *. intros j Hin. apply Hall.
    eapply Permutation_in; [apply Permutation_sym|]; eassumption.
Qed.


(** *** Further properties of [findNordvpnServers] *)

Lemma collect_error_nil data : forall servers warnings servers' warnings' err,
  collect data servers warnings = (servers', warnings', Some err) ->
  servers' = [] /\ warnings' = [].
Proof.
  induction data as [|j data IH]; intros servers warnings servers' warnings' err;
    cbn [collect].
  - discriminate.
  - destruct (negb (TCP j) && negb (UDP j)); [apply IH|].
    destruct (parseServer j) as [e|server]; [|apply IH].
    intros H. injection H as <- <- _. now split.
Qed.

Lemma findNordvpnServers_error_nil resp servers warnings err :
  findNordvpnServers resp = (servers, warnings, Some err) ->
  servers = [] /\ warnings = [].
Proof.
  unfold findNordvpnServers.
  destruct (getErr resp); [intros H; injection H as <- <- _; now split|].
  destruct (negb (status resp =? StatusOK)%Z);
    [intros H; injection H as <- <- _; now split|].
  destruct (Unmarshal (body resp)); [intros H; injection H as <- <- _; now split|].
  apply collect_error_nil.
Qed.

(** X14.  Whenever [findNordvpnServers] returns an error (client error,
    status other than 200, invalid JSON, or a rejected server) it returns
    no server and no warning: nothing partial comes with an error, and the
    warnings collected before a rejected server are dropped. *)
Theorem findNordvpnServers_error_returns_nothing resp servers warnings err :
  findNordvpnServers resp = (servers, warnings, Some err) ->
  servers = [] /\ warnings = [].
Proof.
  unfold findNordvpnServers.
  destruct (getErr resp) as [e|]; [intros H; injection H as <- <- _; now split|].
  destruct (negb (status resp =? StatusOK)%Z);
    [intros H; injection H as <- <- _; now split|].
  destruct (Unmarshal (body resp)) as [e|data];
    [intros H; injection H as <- <- _; now split|].
  intros Hcollect. eapply collect_error_nil. exact Hcollect.
Qed.

Lemma filter_partition_length {A} (f : A -> bool) l :
  length (filter f l) + length (filter (fun a => negb (f a)) l) = length l.
Proof.
  induction l as [|a l IH]; cbn; [reflexivity|].
  destruct (f a); cbn; lia.
Qed.

(** X15.  On success every element of the fetched list is accounted for
    once: the number of servers returned plus the number of warnings is
    the length of the list, and there are as many warnings as elements
    supporting neither TCP nor UDP. *)
Theorem findNordvpnServers_accounts_for_all resp data servers warnings :
  getErr resp = None ->
  status resp = StatusOK ->
  Unmarshal (body resp) = inr data ->
  Permutation data (sort_Slice less data) ->
  findNordvpnServers resp = (servers, warnings, None) ->
  length servers + length warnings = length data /\
  length warnings = length (filter (fun j => negb (supported j)) data).
Proof.
  intros Hget Hstatus Hjson Hperm.
  unfold findNordvpnServers. rewrite Hget, Hstatus, Hjson. cbn.
  destruct (collect_result (sort_Slice less data) [] []) as [[err Herr]|(new & Hc & Hall)];
    rewrite ?Herr, ?Hc; [discriminate|].
  cbn [app]. intros H. injection H as <- <-.
  apply Forall2_length in Hall. rewrite <- Hall, length_map.
  rewrite filter_partition_length.
  split; [now rewrite (Permutation_length Hperm)|].
  apply Permutation_length, Permutation_sym, Permutation_filter_same, Hperm.
Qed.

Lemma ParseUint_10_16_range s id :
  ParseUint_10_16 s = Some id -> (0 <= id <= 65535)%Z.
Proof.
  unfold ParseUint_10_16. destruct s as [|c s]; [discriminate|].
  destruct (parseDigits (String c s) 0) as [n|]; [|discriminate].
  destruct (N.leb_spec n 65535) as [Hle|]; [|discriminate].
  intros H. injection H as <-. lia.
Qed.

(** A server as the loop may return it. *)
Definition wellFormed (server : NordvpnServer) : Prop :=
  (0 <= Number server <= 65535)%Z /\
  net.To4 (IP server) <> None /\
  srvTCP server || srvUDP server = true.

Lemma parseServer_wellFormed j server :
  supported j = true -> parseServer j = inr server -> wellFormed server.
Proof.
  unfold parseServer, wellFormed, supported.
  destruct (ParseIP (IPAddress j)) as [ip|]; [|discriminate].
  destruct (net.To4 ip) eqn:H4; [|discriminate].
  destruct (IndexRune (Name j) hash <? 0)%Z; [discriminate|].
  destruct (ParseUint_10_16 _) as [id|] eqn:Hid; [|discriminate].
  intros Hs H. injection H as <-. cbn.
  split; [now apply ParseUint_10_16_range in Hid|]. split; [congruence | exact Hs].
Qed.

Lemma collect_wellFormed data : forall servers warnings servers' warnings',
  Forall wellFormed servers ->
  collect data servers warnings = (servers', warnings', None) ->
  Forall wellFormed servers'.
Proof.
  induction data as [|j data IH]; intros servers warnings servers' warnings' Hall;
    cbn [collect].
  - intros H. now injection H as <- _.
  - rewrite supported_negb. destruct (supported j) eqn:Hs; cbn [negb]; [|now apply IH].
    destruct (parseServer j) as [e|server] eqn:Hp; [discriminate|].
    apply IH. apply Forall_app. split; [assumption|].
    constructor; [|constructor]. eapply parseServer_wellFormed; eassumption.
Qed.

(** X16.  Every server [findNordvpnServers] returns has a number that
    fits 16 bits, an IP address that is IPv4, and supports openvpn over
    TCP or UDP. *)
Theorem findNordvpnServers_servers_wellFormed resp servers warnings :
  findNordvpnServers resp = (servers, warnings, None) ->
  Forall wellFormed servers.
Proof.
  unfold findNordvpnServers.
  destruct (getErr resp); [discriminate|].
  destruct (negb (status resp =? StatusOK)%Z); [discriminate|].
  destruct (Unmarshal (body resp)); [discriminate|].
  apply collect_wellFormed. constructor.
Qed.

(** Whether the byte [c] occurs in [s]. *)
Fixpoint occursIn (c : ascii) (s : string) : bool :=
  match s with
  | EmptyString => false
  | String a rest => Ascii.eqb a c || occursIn c rest
  end.

Lemma IndexRune_absent s c : occursIn c s = false -> IndexRune s c = (-1)%Z.
Proof.
  induction s as [|a s IH]; cbn; [reflexivity|].
  destruct (Ascii.eqb a c); cbn; [discriminate|].
  intros H. now rewrite (IH H).
Qed.

Lemma IndexRune_first prefix c suffix :
  occursIn c prefix = false ->
  IndexRune (String.append prefix (String c suffix)) c = Z.of_nat (String.length prefix).
Proof.
  induction prefix as [|a prefix IH]; cbn [String.append IndexRune String.length occursIn].
  - now rewrite Ascii.eqb_refl.
  - destruct (Ascii.eqb a c); cbn [orb]; [discriminate|].
    intros H. rewrite (IH H).
    destruct (Z.ltb_spec (Z.of_nat (String.length prefix)) 0); lia.
Qed.

Lemma sliceFrom_append prefix c suffix :
  sliceFrom (S (String.length prefix)) (String.append prefix (String c suffix)) = suffix.
Proof.
  induction prefix as [|a prefix IH]; cbn; [reflexivity | exact IH].
Qed.

Lemma parseDigits_no_hash s : forall acc n,
  parseDigits s acc = Some n -> occursIn hash s = false.
Proof.
  induction s as [|a s IH]; intros acc n; cbn [parseDigits occursIn]; [reflexivity|].
  destruct (digitValue a) as [d|] eqn:Hd; [|discriminate].
  intros H. rewrite (IH _ _ H), orb_false_r.
  destruct (Ascii.eqb_spec a hash) as [->|]; [discriminate Hd | reflexivity].
Qed.

(** X17.  For a server whose IP address is valid IPv4 the ID is what
    follows the first '#' of the name: without a '#' the error is "No ID";
    otherwise the server is returned with that ID when the rest of the
    name parses as a 16-bit unsigned decimal, and the error is "Bad ID"
    when it does not, in particular whenever the name has a second '#'. *)
Theorem parseServer_ID_after_first_hash j ip :
  ParseIP (IPAddress j) = Some ip -> net.To4 ip <> None ->
  (occursIn hash (Name j) = false -> parseServer j = inl (NoID (Name j))) /\
  (forall prefix suffix,
     Name j = String.append prefix (String hash suffix) ->
     occursIn hash prefix = false ->
     parseServer j =
       match ParseUint_10_16 suffix with
       | Some id => inr {| Region := Country j; Number := id; IP := ip;
                           srvTCP := TCP j; srvUDP := UDP j |}
       | None => inl (BadID (Name j))
       end /\
     (occursIn hash suffix = true -> parseServer j = inl (BadID (Name j)))).
Proof.
  intros Hip H4. unfold parseServer. rewrite Hip.
  destruct (net.To4 ip); [clear H4 | contradiction].
  split.
  - intros Hno. now rewrite (IndexRune_absent _ _ Hno).
  - intros prefix suffix Hname Hpre.
    assert (Hparse :
      (if (IndexRune (Name j) hash <? 0)%Z then inl (NoID (Name j))
       else match ParseUint_10_16
                    (sliceFrom (Z.to_nat (IndexRune (Name j) hash + 1)) (Name j)) with
            | Some id => inr {| Region := Country j; Number := id; IP := ip;
                                srvTCP := TCP j; srvUDP := UDP j |}
            | None => inl (BadID (Name j))
            end) =
      match ParseUint_10_16 suffix with
      | Some id => inr {| Region := Country j; Number := id; IP := ip;
                          srvTCP := TCP j; srvUDP := UDP j |}
      | None => inl (BadID (Name j))
      end).
    { rewrite Hname, (IndexRune_first _ _ _ Hpre).
      destruct (Z.ltb_spec (Z.of_nat (String.length prefix)) 0) as [|_]; [lia|].
      replace (Z.to_nat (Z.of_nat (String.length prefix) + 1))
        with (S (String.length prefix)) by lia.
      now rewrite sliceFrom_append. }
    split.
    + rewrite <- Hparse.
      destruct (IndexRune (Name j) hash <? 0)%Z; [reflexivity|].
      destruct (ParseUint_10_16 _); reflexivity.
    + intros Hsuf.
      assert (Hnone : ParseUint_10_16 suffix = None).
      { unfold ParseUint_10_16. destruct suffix as [|c suffix]; [reflexivity|].
        destruct (parseDigits (String c suffix) 0) as [n|] eqn:Hd; [|reflexivity].
        apply parseDigits_no_hash in Hd. congruence. }
      rewrite Hnone in Hparse. rewrite <- Hparse.
      destruct (IndexRune (Name j) hash <? 0)%Z; [|destruct (ParseUint_10_16 _)];
        try reflexivity.
      all: discriminate Hparse.
Qed.

Lemma collect_first_rejected l1 : forall j l2 servers warnings err,
  Forall (fun x => supported x = true -> exists server, parseServer x = inr server) l1 ->
  supported j = true -> parseServer j = inl err ->
  collect (l1 ++ j :: l2) servers warnings = ([], [], Some err).
Proof.
  induction l1 as [|x l1 IH]; intros j l2 servers warnings err Hall Hs Hp;
    cbn [app collect]; rewrite supported_negb.
  - now rewrite Hs, Hp.
  - inversion Hall as [|? ? Hx Hrest]; subst.
    destruct (supported x) eqn:Hsx; cbn [negb]; [|now apply IH].
    destruct (Hx eq_refl) as (server & ->). now apply IH.
Qed.

(** X18.  The error returned is that of the first rejected server in
    sorted order: if every server before [j] in the sorted list is
    unsupported or accepted, and [j] is supported and rejected with [err],
    the call returns exactly [err]. *)
Theorem findNordvpnServers_first_error resp data l1 j l2 err :
  getErr resp = None ->
  status resp = StatusOK ->
  Unmarshal (body resp) = inr data ->
  sort_Slice less data = l1 ++ j :: l2 ->
  Forall (fun x => supported x = true -> exists server, parseServer x = inr server) l1 ->
  supported j = true -> parseServer j = inl err ->
  findNordvpnServers resp = ([], [], Some err).
Proof.
  intros Hget Hstatus Hjson Hsort Hall Hs Hp.
  unfold findNordvpnServers. rewrite Hget, Hstatus, Hjson, Hsort. cbn.
  now apply collect_first_rejected.
Qed.

(** *** [updateNordvpn] and [stringifyNordvpnServers] *)

(** [models.NordvpnServer.String()], not part of the sources at hand. *)
Variable serverString : NordvpnServer -> string.

Definition newline : string := String (ascii_of_nat 10) EmptyString.
Definition tab : string := String (ascii_of_nat 9) EmptyString.

(** One round of the loop of lines 99-101: what is appended to [s]. *)
Definition serverLine (server : NordvpnServer) : string :=
  String.append tab (String.append tab
    (String.append (serverString server) (String.append "," newline))).

(** The loop of lines 99-101, [s += ...] for each server. *)
Fixpoint appendServers (servers : list NordvpnServer) (s : string) : string :=
  match servers with
  | [] => s
  | server :: rest => appendServers rest (String.append s (serverLine server))
  end.

Definition stringifyHeader : string :=
  String.append
    (String.append "func NordvpnServers() []models.NordvpnServer {" newline)
    (String.append tab (String.append "return []models.NordvpnServer{" newline)).

Definition stringifyFooter : string :=
  String.append (String.append tab (String.append "}" newline)) "}".

(** [func stringifyNordvpnServers(servers) (s string)], lines 96-105 *)
Definition stringifyNordvpnServers (servers : list NordvpnServer) : string :=
  let s := String.append "func NordvpnServers() []models.NordvpnServer {" newline in
  let s := String.append s
             (String.append tab (String.append "return []models.NordvpnServer{" newline)) in
  let s := appendServers servers s in
  let s := String.append s (String.append tab (String.append "}" newline)) in
  String.append s "}".

(** The fields of [updater] that [updateNordvpn] reads and writes. *)
Record updater := {
  optionsCLI : bool;
  optionsStdout : bool;
  nordvpnTimestamp : Z;
  nordvpnServers : list NordvpnServer
}.

Inductive effect :=
| LoggerWarn (fmt arg : string)      (* u.logger.Warn("Nordvpn: %s", warning) *)
| Println (s : string).              (* u.println(s) *)

(** [fmt.Errorf("cannot update Nordvpn servers: %w", err)] *)
Inductive updateError := CannotUpdate (err : error).

(** [func (u *updater) updateNordvpn(ctx) (err error)], lines 17-33;
    [unixNow] is [u.timeNow().Unix()]. *)
Definition updateNordvpn (u : updater) (resp : response) (unixNow : Z)
  : updater * list effect * option updateError :=
  let '(servers, warnings, err) := findNordvpnServers resp in
  let logged :=
    if optionsCLI u then map (LoggerWarn "Nordvpn: %s") warnings else [] in
  match err with
  | Some e => (u, logged, Some (CannotUpdate e))
  | None =>
      let printed :=
        if optionsStdout u then [Println (stringifyNordvpnServers servers)] else [] in
      ({| optionsCLI := optionsCLI u; optionsStdout := optionsStdout u;
          nordvpnTimestamp := unixNow; nordvpnServers := servers |},
       logged ++ printed, None)
  end.

Lemma string_append_assoc a b c :
  String.append (String.append a b) c = String.append a (String.append b c).
Proof. induction a as [|x a IH]; cbn; [reflexivity | now rewrite IH]. Qed.

Lemma string_append_nil_r a : String.append a EmptyString = a.
Proof. induction a as [|x a IH]; cbn; [reflexivity | now rewrite IH]. Qed.

Lemma concat_lines_cons (x : string) l :
  String.concat EmptyString (x :: l) = String.append x (String.concat EmptyString l).
Proof.
  destruct l as [|y l]; cbn; [now rewrite string_append_nil_r | reflexivity].
Qed.

Lemma appendServers_concat servers : forall s,
  appendServers servers s =
  String.append s (String.concat EmptyString (map serverLine servers)).
Proof.
  induction servers as [|server servers IH]; intros s; cbn [appendServers map].
  - cbn. now rewrite string_append_nil_r.
  - now rewrite IH, string_append_assoc, concat_lines_cons.
Qed.

(** X19.  [stringifyNordvpnServers] prints the fixed header, then one
    line per server in list order (two tabs, the server, a comma, a
    newline), then the fixed footer. *)
Theorem stringifyNordvpnServers_lines servers :
  stringifyNordvpnServers servers =
  String.append stringifyHeader
    (String.append (String.concat EmptyString (map serverLine servers)) stringifyFooter).
Proof.
  unfold stringifyNordvpnServers, stringifyHeader, stringifyFooter.
  rewrite appendServers_concat. now rewrite !string_append_assoc.
Qed.

(** X20.  [updateNordvpn] on failure leaves the stored servers and
    timestamp as they were, returns the wrapped error, and logs and prints
    nothing, even in CLI mode (the warnings do not come with an error); on
    success it stores the servers found and the present time, logs one
    warning per unsupported server in CLI mode only, and prints the
    servers when [Stdout] is set. *)
Theorem updateNordvpn_outcome u resp unixNow :
  match findNordvpnServers resp with
  | (_, _, Some err) =>
      updateNordvpn u resp unixNow = (u, [], Some (CannotUpdate err))
  | (servers, warnings, None) =>
      updateNordvpn u resp unixNow =
      ({| optionsCLI := optionsCLI u; optionsStdout := optionsStdout u;
          nordvpnTimestamp := unixNow; nordvpnServers := servers |},
       (if optionsCLI u then map (LoggerWarn "Nordvpn: %s") warnings else [])
       ++ (if optionsStdout u then [Println (stringifyNordvpnServers servers)] else []),
       None)
  end.
Proof.
  unfold updateNordvpn.
  destruct (findNordvpnServers resp) as [[servers warnings] [err|]] eqn:Hfind;
    [|reflexivity].
  apply findNordvpnServers_error_nil in Hfind as [-> ->].
  now destruct (optionsCLI u).
Qed.


End Find.

(** An insertion sort, one of the orders [sort.Slice] may produce. *)
Fixpoint insertSorted (f : jsonServer -> jsonServer -> bool) (x : jsonServer)
  (l : list jsonServer) : list jsonServer :=
  match l with
  | [] => [x]
  | y :: rest => if f y x then y :: insertSorted f x rest else x :: l
  end.

Fixpoint insertionSort (f : jsonServer -> jsonServer -> bool)
  (l : list jsonServer) : list jsonServer :=
  match l with
  | [] => []
  | x :: rest => insertSorted f x (insertionSort f rest)
  end.

(** A three-line parser standing for [net.ParseIP] on the example. *)
Definition exampleParseIP (s : string) : option net.IP :=
  if String.eqb s "185.9.19.131"
  then Some [x00;x00;x00;x00;x00;x00;x00;x00;x00;x00;xff;xff;xb9;x09;x13;x83]
  else if String.eqb s "31.171.152.19"
       then Some [x00;x00;x00;x00;x00;x00;x00;x00;x00;x00;xff;xff;x1f;xab;x98;x13]
       else None.

Definition doubleQuote : string := String (ascii_of_nat 34) EmptyString.

Definition exampleQuote (s : string) : string :=
  String.append doubleQuote (String.append s doubleQuote).

Definition serverUS : jsonServer :=
  {| IPAddress := "185.9.19.131"; Name := "United States #12";
     Country := "United States"; UDP := true; TCP := true |}.

Definition serverAL : jsonServer :=
  {| IPAddress := "31.171.152.19"; Name := "Albania #9";
     Country := "Albania"; UDP := true; TCP := false |}.

Definition serverBE : jsonServer :=
  {| IPAddress := "not an address"; Name := "Belgium";
     Country := "Belgium"; UDP := false; TCP := false |}.

Definition exampleData : list jsonServer := [serverUS; serverAL; serverBE].

Definition exampleResponse : response :=
  {| body := []; status := 200; getErr := None |}.

Definition exampleUnmarshal (_ : list byte) : string + list jsonServer :=
  inr exampleData.

(** Three servers out of order, one of them without openvpn support. *)
Lemma findNordvpnServers_sorted_supported_witness :
  exists servers,
    findNordvpnServers exampleParseIP exampleUnmarshal insertionSort exampleQuote
      exampleResponse =
      (servers,
       [String.append "server "
          (String.append (exampleQuote "Belgium")
             " does not support TCP and UDP for openvpn")],
       None) /\
    map Region servers = ["Albania"; "United States"] /\
    map Number servers = [9%Z; 12%Z].
Proof.
  assert (Hsort : insertionSort less exampleData = [serverAL; serverBE; serverUS])
    by (vm_compute; reflexivity).
  assert (Hperm : Permutation exampleData (insertionSort less exampleData)).
  { rewrite Hsort. apply (Permutation_cons_append [serverAL; serverBE]). }
  assert (Hsorted : StronglySorted (fun a b => less b a = false)
                      (insertionSort less exampleData)).
  { rewrite Hsort. repeat (constructor; try (vm_compute; reflexivity)). }
  destruct (findNordvpnServers_sorted_supported exampleParseIP exampleUnmarshal
              insertionSort exampleQuote exampleResponse exampleData
              eq_refl eq_refl eq_refl Hperm Hsorted)
    as (_ & _ & _ & _ & [(err & Herr) | (servers & Hfind & Hall & Hregion)] & _).
  - vm_compute in Herr. discriminate Herr.
  - exists servers. split; [exact Hfind|]. split; [exact Hregion|].
    vm_compute in Hfind. injection Hfind as <-. reflexivity.
Defined.


(** A supported server whose name has no ID, and a list in which it comes
    after an unsupported one. *)
Definition serverCA : jsonServer :=
  {| IPAddress := "185.9.19.131"; Name := "Canada";
     Country := "Canada"; UDP := true; TCP := true |}.

Definition rejectedData : list jsonServer := [serverCA; serverBE].

Definition rejectedUnmarshal (_ : list byte) : string + list jsonServer :=
  inr rejectedData.

Definition mappedUS : net.IP :=
  [x00;x00;x00;x00;x00;x00;x00;x00;x00;x00;xff;xff;xb9;x09;x13;x83].

(** The warning for Belgium is dropped when Canada is rejected. *)
Lemma findNordvpnServers_error_returns_nothing_witness :
  exists servers warnings,
    findNordvpnServers exampleParseIP rejectedUnmarshal insertionSort exampleQuote
      exampleResponse = (servers, warnings, Some (NoID "Canada")) /\
    servers = [] /\ warnings = [].
Proof.
  destruct (findNordvpnServers exampleParseIP rejectedUnmarshal insertionSort
              exampleQuote exampleResponse) as [[servers warnings] err] eqn:Hfind.
  exists servers, warnings.
  assert (Herr : err = Some (NoID "Canada"))
    by (vm_compute in Hfind; injection Hfind as _ _ <-; reflexivity).
  subst err. split; [reflexivity|].
  exact (findNordvpnServers_error_returns_nothing exampleParseIP rejectedUnmarshal
           insertionSort exampleQuote exampleResponse _ _ _ Hfind).
Defined.

(** Two servers and one warning for the three elements of the example. *)
Lemma findNordvpnServers_accounts_for_all_witness :
  exists servers warnings,
    findNordvpnServers exampleParseIP exampleUnmarshal insertionSort exampleQuote
      exampleResponse = (servers, warnings, None) /\
    length servers + length warnings = length exampleData /\
    length warnings = length (filter (fun j => negb (supported j)) exampleData).
Proof.
  destruct (findNordvpnServers exampleParseIP exampleUnmarshal insertionSort
              exampleQuote exampleResponse) as [[servers warnings] err] eqn:Hfind.
  exists servers, warnings.
  assert (Herr : err = None)
    by (vm_compute in Hfind; injection Hfind as _ _ <-; reflexivity).
  subst err. split; [reflexivity|].
  assert (Hsort : insertionSort less exampleData = [serverAL; serverBE; serverUS])
    by (vm_compute; reflexivity).
  assert (Hperm : Permutation exampleData (insertionSort less exampleData)).
  { rewrite Hsort. apply (Permutation_cons_append [serverAL; serverBE]). }
  exact (findNordvpnServers_accounts_for_all exampleParseIP exampleUnmarshal
           insertionSort exampleQuote exampleResponse exampleData _ _
           eq_refl eq_refl eq_refl Hperm Hfind).
Defined.

(** The servers of the example are well formed. *)
Lemma findNordvpnServers_servers_wellFormed_witness :
  exists servers warnings,
    findNordvpnServers exampleParseIP exampleUnmarshal insertionSort exampleQuote
      exampleResponse = (servers, warnings, None) /\
    Forall wellFormed servers.
Proof.
  destruct (findNordvpnServers exampleParseIP exampleUnmarshal insertionSort
              exampleQuote exampleResponse) as [[servers warnings] err] eqn:Hfind.
  exists servers, warnings.
  assert (Herr : err = None)
    by (vm_compute in Hfind; injection Hfind as _ _ <-; reflexivity).
  subst err. split; [reflexivity|].
  exact (findNordvpnServers_servers_wellFormed exampleParseIP exampleUnmarshal
           insertionSort exampleQuote exampleResponse _ _ Hfind).
Defined.

(** "United States #12" has ID 12. *)
Lemma parseServer_ID_after_first_hash_witness :
  parseServer exampleParseIP serverUS =
  inr {| Region := "United States"; Number := 12; IP := mappedUS;
         srvTCP := true; srvUDP := true |}.
Proof.
  assert (H4 : net.To4 mappedUS <> None) by (vm_compute; discriminate).
  destruct (parseServer_ID_after_first_hash exampleParseIP serverUS mappedUS
              eq_refl H4) as [_ Hid].
  destruct (Hid "United States " "12" eq_refl eq_refl) as [Hparse _].
  exact Hparse.
Defined.

(** Canada is the first rejected server of the rejected list. *)
Lemma findNordvpnServers_first_error_witness :
  findNordvpnServers exampleParseIP rejectedUnmarshal insertionSort exampleQuote
    exampleResponse = ([], [], Some (NoID "Canada")).
Proof.
  apply (findNordvpnServers_first_error exampleParseIP rejectedUnmarshal insertionSort
           exampleQuote exampleResponse rejectedData [serverBE] serverCA []);
    try reflexivity.
  constructor; [|constructor]. intros H. discriminate H.
Defined.


End updater.
